(** * Evolvia: the yearly tick of a nation simulator

    A shallow embedding of [main.py]: the entity classes ([Law], [City],
    [Event], [Country]), the per-city yearly update, the national tick,
    and the save/load pair, followed by the properties the specification
    states about them.

    Python objects are mutated in place and a raised exception leaves
    the mutations made so far; methods are therefore computations in a
    state-and-exception monad whose final state is available whether the
    call returned or raised.  The module-level generators ([random],
    [uuid4]) are an explicit environment of draws.  Python floats are
    IEEE binary64 values ([SpecFloat]).  Console output is not part of
    the model. *)

From Stdlib Require Import ZArith List String Bool Lia Permutation.
From Stdlib Require Import Ascii DecimalString Sorted.
From Stdlib Require Import Floats.SpecFloat.
Import ListNotations.

Local Open Scope string_scope.
Local Open Scope Z_scope.
Local Open Scope list_scope.

(** ** Exceptions and the state-and-exception monad *)

Variant exn : Type :=
  | KeyError (key : string)
  | TypeError
  | ValueError
  | OverflowError
  | ZeroDivisionError.

Variant result (A : Type) : Type :=
  | Ok (a : A)
  | Raise (e : exn).
Arguments Ok {A} a.
Arguments Raise {A} e.

(** A computation over a mutable state [St]: it ends with a value or
    with an exception, and in both cases with the state it reached. *)
Definition M (St A : Type) : Type := St -> result A * St.

Definition ret {St A} (a : A) : M St A := fun s => (Ok a, s).

Definition raise {St A} (e : exn) : M St A := fun s => (Raise e, s).

Definition bind {St A B} (m : M St A) (k : A -> M St B) : M St B :=
  fun s =>
    match m s with
    | (Ok a, s') => k a s'
    | (Raise e, s') => (Raise e, s')
    end.

Definition lift_result {St A} (r : result A) : M St A := fun s => (r, s).

Declare Scope py_scope.
Delimit Scope py_scope with py.
Notation "x <- m ;; k" := (bind m (fun x => k))
  (at level 61, m at next level, right associativity) : py_scope.
Notation "m ;; k" := (bind m (fun _ => k))
  (at level 61, right associativity) : py_scope.
Local Open Scope py_scope.

(** ** Python dictionaries

    A [dict] keeps its items in insertion order; a well-formed one has
    no key twice. *)
Module Dict.

Definition dict (V : Type) : Type := list (string * V).

Definition keys {V} (d : dict V) : list string := map fst d.

Definition wf {V} (d : dict V) : Prop := NoDup (keys d).

(** [d.get(k)] *)
Fixpoint lookup {V} (k : string) (d : dict V) : option V :=
  match d with
  | [] => None
  | (k', v) :: d' => if String.eqb k k' then Some v else lookup k d'
  end.

(** [k in d] *)
Definition mem {V} (k : string) (d : dict V) : bool :=
  match lookup k d with Some _ => true | None => false end.

(** [d[k] = v]: an existing key keeps its place, a new one goes last. *)
Fixpoint set {V} (k : string) (v : V) (d : dict V) : dict V :=
  match d with
  | [] => [(k, v)]
  | (k', v') :: d' =>
      if String.eqb k k' then (k', v) :: d' else (k', v') :: set k v d'
  end.

(** [d[k]], raising [KeyError] on a missing key. *)
Definition getitem {V} (k : string) (d : dict V) : result V :=
  match lookup k d with
  | Some v => Ok v
  | None => Raise (KeyError k)
  end.

End Dict.
Import Dict.

(** ** Python floats: IEEE 754 binary64 *)
Module Float.

Definition prec : Z := 53.
Definition emax : Z := 1024.

Definition float : Type := spec_float.

(** An integer as an exact, not yet rounded, binary number. *)
Definition exact (z : Z) : float :=
  match z with
  | Z0 => S754_zero false
  | Zpos p => S754_finite false p 0
  | Zneg p => S754_finite true p 0
  end.

(** An operation whose result is too large for a float raises. *)
Definition checked (f : float) : result float :=
  match f with
  | S754_infinity _ | S754_nan => Raise OverflowError
  | _ => Ok f
  end.

(** [float(z)], the implicit conversion of an [int] operand: the
    nearest float, ties to even; [OverflowError] when out of range. *)
Definition of_int (z : Z) : result float :=
  checked (binary_normalize prec emax z 0 false).

(** [a / b] on two [int]s: the correctly rounded quotient. *)
Definition truediv (a b : Z) : result float :=
  if b =? 0 then Raise ZeroDivisionError
  else checked (SFdiv prec emax (exact a) (exact b)).

Definition add : float -> float -> float := SFadd prec emax.
Definition sub : float -> float -> float := SFsub prec emax.
Definition mul : float -> float -> float := SFmul prec emax.
Definition ltb : float -> float -> bool := SFltb.

(** [int(f)]: truncation toward zero. *)
Definition to_int (f : float) : result Z :=
  match f with
  | S754_zero _ => Ok 0
  | S754_finite s m e =>
      let a := if 0 <=? e then Z.shiftl (Zpos m) e
               else Z.shiftr (Zpos m) (- e) in
      Ok (if s then - a else a)
  | S754_infinity _ => Raise OverflowError
  | S754_nan => Raise ValueError
  end.

(** The literals [0.01] and [0.3]: the floats nearest to 1/100 and
    3/10. *)
Definition lit_0_01 : float :=
  Eval vm_compute in SFdiv prec emax (exact 1) (exact 100).
Definition lit_0_3 : float :=
  Eval vm_compute in SFdiv prec emax (exact 3) (exact 10).

End Float.

(** ** The environment: [random] and [uuid4]

    The generators are streams of raw draws read in order.  Every
    sequence of outcomes the library can produce is the image of some
    stream, so a statement for all environments is a statement for all
    sequences of random draws. *)
Record Env : Type := mkEnv {
  draws : nat -> Z;        (* raw output of the [random] module *)
  cursor : nat;            (* how many draws were consumed *)
  uuids : nat -> string;   (* the strings [str(uuid4())] will return *)
  issued : nat             (* how many identifiers were issued *)
}.

Definition next_draw (env : Env) : Z * Env :=
  (draws env (cursor env),
   mkEnv (draws env) (S (cursor env)) (uuids env) (issued env)).

(** [random.randint(a, b)] for [a <= b]: an integer of [a..b].  A raw
    draw already in range is returned as it is. *)
Definition randint (a b : Z) (env : Env) : Z * Env :=
  let (x, env') := next_draw env in
  (a + (x - a) mod (b - a + 1), env').

(** [random.random()]: a float [k / 2^53] with [0 <= k < 2^53]. *)
Definition random (env : Env) : Float.float * Env :=
  let (x, env') := next_draw env in
  (binary_normalize Float.prec Float.emax (x mod 2 ^ 53) (-53) false, env').

(** [random.choice(seq)] on the non-empty sequence [x :: l]. *)
Definition choice {A} (x : A) (l : list A) (env : Env) : A * Env :=
  let (i, env') := next_draw env in
  (nth (Z.to_nat (i mod Z.of_nat (List.length (x :: l)))) (x :: l) x, env').

(** [str(uuid4())] *)
Definition uuid4 (env : Env) : string * Env :=
  (uuids env (issued env),
   mkEnv (draws env) (cursor env) (uuids env) (S (issued env))).

(** A method of an object of class [X]: its state is [self] and the
    environment. *)
Definition Method (X A : Type) : Type := M (X * Env) A.

Definition self {X} : Method X X := fun s => (Ok (fst s), s).

Definition update {X} (f : X -> X) : Method X unit :=
  fun s => (Ok tt, (f (fst s), snd s)).

Definition draw {X A} (d : Env -> A * Env) : Method X A :=
  fun s => (Ok (fst (d (snd s))), (fst s, snd (d (snd s)))).

(** [for k, v in d.items(): body] *)
Fixpoint for_items {St V} (d : dict V) (body : string -> V -> M St unit)
  : M St unit :=
  match d with
  | [] => ret tt
  | (k, v) :: d' => body k v ;; for_items d' body
  end.

(** Sequencing of pure computations that may raise. *)
Definition and_then {A B} (r : result A) (k : A -> result B) : result B :=
  match r with
  | Ok a => k a
  | Raise e => Raise e
  end.
Notation "'let?' x := r 'in' k" := (and_then r (fun x => k))
  (at level 10, x name, r at level 100, k at level 200) : py_scope.

(** The attribute names every Python object inherits ([__class__],
    [__dict__], [__doc__], ...) depend on the interpreter; none of them
    holds an [int]. *)
Class Interpreter : Type := { inherited_attr : string -> bool }.

(** ** Data models *)

Module Law.

Record t : Type := mk {
  id : string;
  title : string;
  description : string;
  impact : dict Z          (* e.g. {'crime': -2, 'happiness': +1} *)
}.

(** [Law(title, description, impact)] *)
Definition new (title description : string) (impact : dict Z) (env : Env)
  : t * Env :=
  (mk (fst (uuid4 env)) title description impact, snd (uuid4 env)).

End Law.

Module City.

Record t : Type := mk {
  id : string;
  name : string;
  population : Z;
  economy : Z;             (* 0-100 *)
  crime : Z;               (* 0-100 *)
  happiness : Z;           (* 0-100 *)
  features : list string
}.

(** [City(name, population, features, economy, crime, happiness)] *)
Definition new (name : string) (population : Z) (features : list string)
    (economy crime happiness : Z) (env : Env) : t * Env :=
  (mk (fst (uuid4 env)) name population economy crime happiness
      (match features with [] => [] | _ => features end),
   snd (uuid4 env)).

Definition with_population (v : Z) (c : t) : t :=
  mk (id c) (name c) v (economy c) (crime c) (happiness c) (features c).
Definition with_economy (v : Z) (c : t) : t :=
  mk (id c) (name c) (population c) v (crime c) (happiness c) (features c).
Definition with_crime (v : Z) (c : t) : t :=
  mk (id c) (name c) (population c) (economy c) v (happiness c) (features c).
Definition with_happiness (v : Z) (c : t) : t :=
  mk (id c) (name c) (population c) (economy c) (crime c) v (features c).

(** The attributes of a city that hold an [int]. *)
Variant numeric : Type := Population | Economy | Crime | Happiness.

Definition numeric_attr (k : string) : option numeric :=
  if String.eqb k "population" then Some Population
  else if String.eqb k "economy" then Some Economy
  else if String.eqb k "crime" then Some Crime
  else if String.eqb k "happiness" then Some Happiness
  else None.

Definition getattr (f : numeric) (c : t) : Z :=
  match f with
  | Population => population c
  | Economy => economy c
  | Crime => crime c
  | Happiness => happiness c
  end.

Definition setattr (f : numeric) (v : Z) (c : t) : t :=
  match f with
  | Population => with_population v c
  | Economy => with_economy v c
  | Crime => with_crime v c
  | Happiness => with_happiness v c
  end.

Section Methods.
Context {interp : Interpreter}.

(** [hasattr(self, k)]: the seven instance attributes, the method,
    and what every object inherits. *)
Definition hasattr (k : string) : bool :=
  match numeric_attr k with
  | Some _ => true
  | None =>
      String.eqb k "id" || String.eqb k "name" || String.eqb k "features"
      || String.eqb k "yearly_update" || inherited_attr k
  end.

(** One round of the law-effect loop.  [getattr(self, k) + v] is an
    integer sum on a numeric attribute and a [TypeError] on any
    other one. *)
Definition apply_law_effect (k : string) (v : Z) : Method t unit :=
  if hasattr k then
    match numeric_attr k with
    | Some f =>
        update (fun c => setattr f (Z.max 0 (Z.min 100 (getattr f c + v))) c)
    | None => raise TypeError
    end
  else ret tt.

(** [0.01 + economy/1000 - crime/2000] *)
Definition growth_rate (economy crime : Z) : result Float.float :=
  let? e := Float.truediv economy 1000 in
  let? c := Float.truediv crime 2000 in
  Ok (Float.sub (Float.add Float.lit_0_01 e) c).

(** [int(population * (0.01 + economy/1000 - crime/2000))]: the
    rate is computed first, then [population] is converted to a
    float for the product. *)
Definition growth (population economy crime : Z) : result Z :=
  let? rate := growth_rate economy crime in
  let? p := Float.of_int population in
  Float.to_int (Float.mul p rate).

Definition yearly_update (law_effects : dict Z) : Method t unit :=
  (* Apply law effects *)
  for_items law_effects apply_law_effect ;;
  (* Economic growth *)
  econ_growth <- draw (randint 0 2) ;;
  update (fun c => with_economy (Z.min 100 (economy c + econ_growth)) c) ;;
  (* Happiness and crime random drift *)
  d <- draw (randint (-1) 2) ;;
  update (fun c =>
            with_happiness (Z.max 0 (Z.min 100 (happiness c + d))) c) ;;
  d <- draw (randint (-1) 1) ;;
  update (fun c => with_crime (Z.max 0 (Z.min 100 (crime c + d))) c) ;;
  (* Population growth *)
  c <- self ;;
  growth <- lift_result (growth (population c) (economy c) (crime c)) ;;
  update (fun c => with_population (Z.max 0 (population c + growth)) c).

End Methods.

End City.

Module Event.

Record t : Type := mk {
  id : string;
  description : string;
  effect : dict Z;         (* e.g. {'food': +100, 'money': -200} *)
  year : Z
}.

(** [Event(description, effect, year)] *)
Definition new (description : string) (effect : dict Z) (year : Z)
    (env : Env) : t * Env :=
  (mk (fst (uuid4 env)) description effect year, snd (uuid4 env)).

End Event.

(** ** JSON documents, as [json.dump] writes and [json.load] reads them *)

#[local] Unset Elimination Schemes.
Inductive json : Type :=
  | JNull
  | JBool (b : bool)
  | JInt (z : Z)
  | JStr (s : string)
  | JList (l : list json)
  | JObject (o : list (string * json)).
#[local] Set Elimination Schemes.

Module Json.

Definition of_dict (d : dict Z) : json :=
  JObject (map (fun kv => (fst kv, JInt (snd kv))) d).

Definition of_strings (l : list string) : json := JList (map JStr l).

(** [j[k]] *)
Definition item (k : string) (j : json) : result json :=
  match j with
  | JObject o => getitem k o
  | _ => Raise TypeError
  end.

(** The embedding is typed: a field holds an [int], a [str], a list
    or a [dict] of [int]s as its class declares.  Where Python would
    store a value of another JSON type unchecked, the readers below
    report a [TypeError]. *)
Definition as_int (j : json) : result Z :=
  match j with JInt z => Ok z | _ => Raise TypeError end.

Definition as_str (j : json) : result string :=
  match j with JStr s => Ok s | _ => Raise TypeError end.

Definition as_list (j : json) : result (list json) :=
  match j with JList l => Ok l | _ => Raise TypeError end.

Fixpoint all {A B} (f : A -> result B) (l : list A) : result (list B) :=
  match l with
  | [] => Ok []
  | a :: l' => let? b := f a in let? bs := all f l' in Ok (b :: bs)
  end.

Definition as_strings (j : json) : result (list string) :=
  let? l := as_list j in all as_str l.

Definition as_dict (j : json) : result (dict Z) :=
  match j with
  | JObject o =>
      all (fun kv => let? v := as_int (snd kv) in Ok (fst kv, v)) o
  | _ => Raise TypeError
  end.

End Json.

(** [[f(x) for x in l]] where [f] may raise and use the environment. *)
Fixpoint comprehension {St A B} (f : A -> M St B) (l : list A)
  : M St (list B) :=
  match l with
  | [] => ret []
  | a :: l' => b <- f a ;; bs <- comprehension f l' ;; ret (b :: bs)
  end.

Module Country.

Record t : Type := mk {
  name : string;
  description : string;
  population : Z;
  cities : list City.t;
  laws : list Law.t;
  events : list Event.t;
  year : Z;
  resources : dict Z
}.

(** [Country(name)] *)
Definition new (name : string) : t :=
  mk name "A personal, evolving fictional nation." 10000 [] [] []
     1 (* <- Start at year 1! *)
     [("food", 5000); ("money", 10000); ("tech", 500); ("reputation", 50)].

Definition with_name (v : string) (c : t) : t :=
  mk v (description c) (population c) (cities c) (laws c) (events c)
     (year c) (resources c).
Definition with_description (v : string) (c : t) : t :=
  mk (name c) v (population c) (cities c) (laws c) (events c)
     (year c) (resources c).
Definition with_population (v : Z) (c : t) : t :=
  mk (name c) (description c) v (cities c) (laws c) (events c)
     (year c) (resources c).
Definition with_cities (v : list City.t) (c : t) : t :=
  mk (name c) (description c) (population c) v (laws c) (events c)
     (year c) (resources c).
Definition with_laws (v : list Law.t) (c : t) : t :=
  mk (name c) (description c) (population c) (cities c) v (events c)
     (year c) (resources c).
Definition with_events (v : list Event.t) (c : t) : t :=
  mk (name c) (description c) (population c) (cities c) (laws c) v
     (year c) (resources c).
Definition with_year (v : Z) (c : t) : t :=
  mk (name c) (description c) (population c) (cities c) (laws c) (events c)
     v (resources c).
Definition with_resources (v : dict Z) (c : t) : t :=
  mk (name c) (description c) (population c) (cities c) (laws c) (events c)
     (year c) v.

(** [self.resources[k]] *)
Definition resource (k : string) : Method t Z :=
  c <- self ;; lift_result (getitem k (resources c)).

(** [self.resources[k] = v] *)
Definition set_resource (k : string) (v : Z) : Method t unit :=
  update (fun c => with_resources (Dict.set k v (resources c)) c).

(** [self.resources[k] += v] *)
Definition add_resource (k : string) (v : Z) : Method t unit :=
  x <- resource k ;; set_resource k (x + v).

(** [self.events.append(evt)] *)
Definition append_event (evt : Event.t) : Method t unit :=
  update (fun c => with_events (events c ++ [evt]) c).

Definition add_city (name : string) (population : Z)
    (features : option (list string)) : Method t unit :=
  let features := match features with None => [] | Some l => l end in
  city <- draw (City.new name population features 50 10 50) ;;
  update (fun c => with_cities (cities c ++ [city]) c) ;;
  update (fun c => with_population (Country.population c + population) c).

Definition add_law (title description : string) (impact : dict Z)
  : Method t unit :=
  law <- draw (Law.new title description impact) ;;
  update (fun c => with_laws (laws c ++ [law]) c).

(** The body of the effect loop of [add_event]:
    [if k in self.resources: self.resources[k] += v]. *)
Definition apply_effect (k : string) (v : Z) : Method t unit :=
  c <- self ;;
  if mem k (resources c) then add_resource k v else ret tt.

Definition add_event (description : string) (effect : dict Z)
  : Method t unit :=
  c <- self ;;
  event <- draw (Event.new description effect (year c)) ;;
  append_event event ;;
  (* Apply effect *)
  for_items effect apply_effect.

(** The law-effect loop of [simulate_tick]:
    [if k in law_effects: law_effects[k] += v]. *)
Definition add_impact (law_effects : dict Z) (k : string) (v : Z) : dict Z :=
  match lookup k law_effects with
  | Some x => Dict.set k (x + v) law_effects
  | None => law_effects
  end.

Definition cumulative_law_effects (laws : list Law.t) : dict Z :=
  fold_left
    (fun law_effects law =>
       fold_left (fun le kv => add_impact le (fst kv) (snd kv))
                 (Law.impact law) law_effects)
    laws [("crime", 0); ("happiness", 0)].

Section Methods.
Context {interp : Interpreter}.

(** The city loop of [simulate_tick], over the cities not yet
    visited: each city is updated in place and its new population
    added to the running total. *)
Fixpoint update_cities (law_effects : dict Z) (cities : list City.t)
    (total_population : Z) (env : Env) : result Z * (list City.t * Env) :=
  match cities with
  | [] => (Ok total_population, ([], env))
  | city :: rest =>
      match City.yearly_update law_effects (city, env) with
      | (Ok _, (city', env')) =>
          let '(r, (rest', env'')) :=
            update_cities law_effects rest
              (total_population + City.population city') env' in
          (r, (city' :: rest', env''))
      | (Raise e, (city', env')) => (Raise e, (city' :: rest, env'))
      end
  end.

(** Steps 1 to 3: law effects, cities, national population. *)
Definition update_cities_step : Method t unit :=
  fun s =>
    let (c, env) := s in
    (* Calculate cumulative law effects *)
    let law_effects := cumulative_law_effects (laws c) in
    (* Update cities *)
    let '(r, (cities', env')) :=
      update_cities law_effects (cities c) 0 env in
    match r with
    | Ok total_population =>
        (Ok tt,
         (with_population
            (match cities' with
             | [] => Country.population c
             | _ => total_population
             end)
            (with_cities cities' c), env'))
    | Raise e => (Raise e, (with_cities cities' c, env'))
    end.

(** Steps 4 and 5: national resources change. *)
Definition national_resources_step : Method t unit :=
  c <- self ;;
  let food_produced :=
    fold_right Z.add 0 (map City.economy (cities c)) * 5 in
  let food_consumed := Country.population c / 2 in
  add_resource "food" (food_produced - food_consumed) ;;
  money <- resource "money" ;;
  d <- draw (randint (-500) 900) ;;
  set_resource "money" (money + d) ;;
  tech <- resource "tech" ;;
  d <- draw (randint 0 30) ;;
  set_resource "tech" (tech + d) ;;
  reputation <- resource "reputation" ;;
  d <- draw (randint (-2) 3) ;;
  set_resource "reputation" (Z.max 0 (Z.min 100 (reputation + d))).

(** Step 6: random event. *)
Definition random_event_step : Method t unit :=
  r <- draw random ;;
  if Float.ltb r Float.lit_0_3 then
    event_type <- draw (choice "good" ["bad"]) ;;
    c <- self ;;
    if String.eqb event_type "good" then
      evt <- draw (Event.new "A scientific breakthrough boosts tech!"
                     [("tech", 100); ("reputation", 5)] (year c)) ;;
      add_resource "tech" 100 ;;
      add_resource "reputation" 5 ;;
      append_event evt
    else
      evt <- draw (Event.new "A crop blight reduces food stores!"
                     [("food", -300)] (year c)) ;;
      add_resource "food" (-300) ;;
      append_event evt
  else ret tt.

(** Step 7: check for starvation. *)
Definition starvation_step : Method t unit :=
  food <- resource "food" ;;
  if food <? 0 then
    c <- self ;;
    let lost := Z.min (Country.population c / 10) (Country.population c) in
    update (with_population (Country.population c - lost)) ;;
    set_resource "food" 0 ;;
    evt <- draw (Event.new "Starvation strikes the nation!" [] (year c)) ;;
    append_event evt
  else ret tt.

(** Step 8: year advance. *)
Definition year_advance_step : Method t unit :=
  update (fun c => with_year (year c + 1) c).

Definition simulate_tick : Method t unit :=
  update_cities_step ;;
  national_resources_step ;;
  random_event_step ;;
  starvation_step ;;
  year_advance_step.

End Methods.

Definition save_city (c : City.t) : json :=
  JObject
    [("id", JStr (City.id c)); ("name", JStr (City.name c));
     ("population", JInt (City.population c));
     ("economy", JInt (City.economy c)); ("crime", JInt (City.crime c));
     ("happiness", JInt (City.happiness c));
     ("features", Json.of_strings (City.features c))].

Definition save_law (l : Law.t) : json :=
  JObject
    [("id", JStr (Law.id l)); ("title", JStr (Law.title l));
     ("description", JStr (Law.description l));
     ("impact", Json.of_dict (Law.impact l))].

Definition save_event (e : Event.t) : json :=
  JObject
    [("id", JStr (Event.id e)); ("description", JStr (Event.description e));
     ("effect", Json.of_dict (Event.effect e)); ("year", JInt (Event.year e))].

(** The document [save] hands to [json.dump]; the file then holds it
    and [json.load] gives it back to [load]. *)
Definition save (c : t) : json :=
  JObject
    [("name", JStr (name c));
     ("description", JStr (description c));
     ("population", JInt (population c));
     ("year", JInt (year c));
     ("resources", Json.of_dict (resources c));
     ("cities", JList (map save_city (cities c)));
     ("laws", JList (map save_law (laws c)));
     ("events", JList (map save_event (events c)))].

(** [j[k]] read at the type of the field it fills. *)
Definition field {St A} (k : string) (read : json -> result A) (j : json)
  : M St A :=
  lift_result (let? v := Json.item k j in read v).

Definition load_city (c : json) : Method t City.t :=
  name <- field "name" Json.as_str c ;;
  population <- field "population" Json.as_int c ;;
  features <- field "features" Json.as_strings c ;;
  economy <- field "economy" Json.as_int c ;;
  crime <- field "crime" Json.as_int c ;;
  happiness <- field "happiness" Json.as_int c ;;
  draw (City.new name population features economy crime happiness).

Definition load_law (l : json) : Method t Law.t :=
  title <- field "title" Json.as_str l ;;
  description <- field "description" Json.as_str l ;;
  impact <- field "impact" Json.as_dict l ;;
  draw (Law.new title description impact).

Definition load_event (e : json) : Method t Event.t :=
  description <- field "description" Json.as_str e ;;
  effect <- field "effect" Json.as_dict e ;;
  year <- field "year" Json.as_int e ;;
  draw (Event.new description effect year).

Definition load (data : json) : Method t unit :=
  v <- field "name" Json.as_str data ;;
  update (with_name v) ;;
  v <- field "description" Json.as_str data ;;
  update (with_description v) ;;
  v <- field "population" Json.as_int data ;;
  update (with_population v) ;;
  v <- field "year" Json.as_int data ;;
  update (with_year v) ;;
  v <- field "resources" Json.as_dict data ;;
  update (with_resources v) ;;
  l <- field "cities" Json.as_list data ;;
  v <- comprehension load_city l ;;
  update (with_cities v) ;;
  l <- field "laws" Json.as_list data ;;
  v <- comprehension load_law l ;;
  update (with_laws v) ;;
  l <- field "events" Json.as_list data ;;
  v <- comprehension load_event l ;;
  update (with_events v).

End Country.

(** ** The shell: how [main] reads an impact or an effect

    [main] builds the mapping it passes to [add_law] and [add_event]
    from one line of input.  [str.strip] and [int] are taken as they
    are. *)

Class Builtins : Type := {
  strip : string -> string;        (* [s.strip()] *)
  int : string -> result Z         (* [int(s)], [ValueError] on a non-number *)
}.

Module Shell.

(** [s.split(sep)] for a one-character separator. *)
Fixpoint split (sep : Ascii.ascii) (s : string) : list string :=
  match s with
  | EmptyString => [EmptyString]
  | String ch rest =>
      if Ascii.eqb ch sep then EmptyString :: split sep rest
      else match split sep rest with
           | part :: parts => String ch part :: parts
           | [] => [String ch EmptyString]
           end
  end.

(** [ch in s] *)
Fixpoint contains (ch : Ascii.ascii) (s : string) : bool :=
  match s with
  | EmptyString => false
  | String ch' rest => Ascii.eqb ch' ch || contains ch rest
  end.

Section Parsing.
Context {builtins : Builtins}.

(** One round of the loop:
    [if ":" in part: k, v = part.split(":"); impact[k.strip()] = int(v.strip())].
    Unpacking anything but two pieces raises [ValueError]. *)
Definition parse_part (impact : dict Z) (part : string) : result (dict Z) :=
  if contains ":"%char part then
    match split ":"%char part with
    | [k; v] => let? n := int (strip v) in Ok (Dict.set (strip k) n impact)
    | _ => Raise ValueError
    end
  else Ok impact.

Fixpoint parse_parts (impact : dict Z) (parts : list string)
  : result (dict Z) :=
  match parts with
  | [] => Ok impact
  | part :: parts' =>
      let? impact' := parse_part impact part in parse_parts impact' parts'
  end.

(** [impact = {}; for part in raw.split(","): ...] *)
Definition parse_mapping (raw : string) : result (dict Z) :=
  parse_parts [] (split ","%char raw).

(** Choice 3 of the menu, after the three lines were read. *)
Definition enact_law (title description impact_raw : string)
  : Method Country.t unit :=
  impact <- lift_result (parse_mapping impact_raw) ;;
  Country.add_law title description impact.

(** Choice 4 of the menu, after the two lines were read. *)
Definition record_event (description effect_raw : string)
  : Method Country.t unit :=
  effect <- lift_result (parse_mapping effect_raw) ;;
  Country.add_event description effect.

End Parsing.

End Shell.

(** ** Vocabulary of the statements *)

Definition in_percent (v : Z) : Prop := 0 <= v <= 100.

(** The invariant of a city: three percentages and a non-negative
    population. *)
Definition city_valid (c : City.t) : Prop :=
  in_percent (City.economy c) /\ in_percent (City.crime c) /\
  in_percent (City.happiness c) /\ 0 <= City.population c.

(** A law-effect mapping as the tick builds it: no key other than
    "crime" and "happiness". *)
Definition tick_effects (law_effects : dict Z) : Prop :=
  Forall (fun k => k = "crime" \/ k = "happiness") (keys law_effects).

(** The resource pool holds the four national resources. *)
Definition pool_ok (res : dict Z) : Prop :=
  mem "food" res = true /\ mem "money" res = true /\
  mem "tech" res = true /\ mem "reputation" res = true.

(** The reputation recorded in a pool is a percentage. *)
Definition reputation_ok (res : dict Z) : Prop :=
  exists v, lookup "reputation" res = Some v /\ in_percent v.

(** A city on which the growth formula stays within the floats. *)
Definition city_safe (c : City.t) : Prop :=
  0 <= City.economy c /\ Z.abs (City.population c) < 2 ^ 1023.

(** The events the tick itself appends. *)
Definition good_event (id : string) (year : Z) : Event.t :=
  Event.mk id "A scientific breakthrough boosts tech!"
    [("tech", 100); ("reputation", 5)] year.

Definition starvation_event (id : string) (year : Z) : Event.t :=
  Event.mk id "Starvation strikes the nation!" [] year.

(** What an effect does to one resource: nothing to a resource the
    pool does not hold or the effect does not name, the sum
    otherwise. *)
Definition applied (before : option Z) (delta : option Z) : option Z :=
  match before, delta with
  | Some r, Some d => Some (r + d)
  | _, _ => before
  end.

(** What the items of one impact mapping add up to under key [k]. *)
Definition impact_total (k : string) (impact : dict Z) : Z :=
  fold_right (fun kv acc => (if String.eqb (fst kv) k then snd kv else 0) + acc)
             0 impact.

Definition laws_total (k : string) (laws : list Law.t) : Z :=
  fold_right Z.add 0 (map (fun l => impact_total k (Law.impact l)) laws).

(** A law with every impact item outside "crime" and "happiness"
    removed. *)
Definition restrict_impact (l : Law.t) : Law.t :=
  Law.mk (Law.id l) (Law.title l) (Law.description l)
    (filter (fun kv => String.eqb (fst kv) "crime"
                       || String.eqb (fst kv) "happiness")
            (Law.impact l)).




(** A zero, or a finite float of exponent at most [E] and magnitude
    below [2^B]. *)
Definition bounded_by (E B : Z) (f : spec_float) : bool :=
  match f with
  | S754_zero _ => true
  | S754_finite _ m e => (e <=? E) && (Zpos (digits2_pos m) + e <=? B)
  | _ => false
  end.

Definition upto (n : nat) : list Z := map Z.of_nat (seq 0 (S n)).

(** The growth rate of a city is computed without raising and is
    below 1/8. *)
Definition rate_bounded (economy crime : Z) : bool :=
  match City.growth_rate economy crime with
  | Ok f => bounded_by 0 (-3) f
  | Raise _ => false
  end.

(** ** Concrete inputs *)

(** The attributes an instance of a plain class inherits in
    CPython 3.12. *)
Definition cpython : Interpreter :=
  {| inherited_attr k :=
       existsb (String.eqb k)
         ["__class__"; "__delattr__"; "__dict__"; "__dir__"; "__doc__";
          "__eq__"; "__format__"; "__ge__"; "__getattribute__";
          "__getstate__"; "__gt__"; "__hash__"; "__init__";
          "__init_subclass__"; "__le__"; "__lt__"; "__module__"; "__ne__";
          "__new__"; "__reduce__"; "__reduce_ex__"; "__repr__";
          "__setattr__"; "__sizeof__"; "__str__"; "__subclasshook__";
          "__weakref__"] |}.

(** An environment whose n-th raw draw is n and whose n-th identifier
    is "uuid-n". *)
Definition sample_env : Env :=
  mkEnv Z.of_nat 0
        (fun n => "uuid-" ++ NilEmpty.string_of_uint (Nat.to_uint n))%string 0.

(** An environment that makes the tick of a country without cities
    draw +3 for the reputation and then roll the good event. *)
Definition lucky_env : Env :=
  mkEnv (fun n => if Nat.eqb n 2 then 3 else 0) 0 (uuids sample_env) 0.

Definition avalon : City.t :=
  City.mk "uuid-a" "Avalon" 1000 50 10 50 ["port"].

Definition curfew : Law.t :=
  Law.mk "uuid-b" "Curfew" "Streets close at dusk."
         [("crime", -2); ("happiness", -1); ("tax", 5)].

Definition lottery : Law.t :=
  Law.mk "uuid-c" "Lottery" "A weekly draw." [("happiness", 2)].

(** A country with one city and two laws. *)
Definition civica : Country.t :=
  Country.mk "Civica" "A personal, evolving fictional nation." 1000
    [avalon] [curfew; lottery] [] 1
    [("food", 5000); ("money", 10000); ("tech", 500); ("reputation", 50)].

(** A country without cities, 200 people and 50 units of food. *)
Definition hamlet : Country.t :=
  Country.mk "Hamlet" "A personal, evolving fictional nation." 200
    [] [] [] 1
    [("food", 50); ("money", 10000); ("tech", 500); ("reputation", 98)].

(** The country [Country("Civica")] after
    [add_city("Colossus", 2**1024)] and
    [add_event("Famine", {"food": -6000})]. *)
Definition colossus : Country.t :=
  Country.mk "Civica" "A personal, evolving fictional nation."
    (10000 + 2 ^ 1024)
    [City.mk "uuid-0" "Colossus" (2 ^ 1024) 50 10 50 []] []
    [Event.mk "uuid-1" "Famine" [("food", -6000)] 1] 1
    [("food", -1000); ("money", 10000); ("tech", 500); ("reputation", 50)].

(** ** Vocabulary of the further properties *)

(** [max(0, min(100, v))] *)
Definition clamp (v : Z) : Z := Z.max 0 (Z.min 100 v).

(** An attribute after the law-effect loop: clamped with its delta
    when the mapping names it, untouched otherwise. *)
Definition adjusted (x : Z) (delta : option Z) : Z :=
  match delta with
  | Some v => clamp (x + v)
  | None => x
  end.

Definition bad_event (id : string) (year : Z) : Event.t :=
  Event.mk id "A crop blight reduces food stores!" [("food", -300)] year.

(** The sign a float contributes to a product: -1, 0 or 1. *)
Definition float_sign (f : spec_float) : Z :=
  match f with
  | S754_finite true _ _ => -1
  | S754_finite false _ _ => 1
  | _ => 0
  end.

(** The growth rate is computed without raising and has the sign of
    [20 + 2 * economy - crime] wherever that is not zero. *)
Definition rate_sign_agrees (economy crime : Z) : bool :=
  match City.growth_rate economy crime with
  | Ok f =>
      (20 + 2 * economy - crime =? 0)
      || (float_sign f =? Z.sgn (20 + 2 * economy - crime))
  | Raise _ => false
  end.

(** The three percentages of a city are in range. *)
Definition percentages_ok (c : City.t) : Prop :=
  in_percent (City.economy c) /\ in_percent (City.crime c)
  /\ in_percent (City.happiness c).

(** The sum of the city populations. *)
Definition city_total (cities : list City.t) : Z :=
  fold_right Z.add 0 (map City.population cities).

(** One call of a mutation entry point other than [load], with any
    arguments and any environment; the state it leaves, whether it
    returned or raised. *)
Inductive step {interp : Interpreter} : Country.t -> Country.t -> Prop :=
  | step_add_city c env name population features :
      step c (fst (snd (Country.add_city name population features (c, env))))
  | step_add_law c env title description impact :
      step c (fst (snd (Country.add_law title description impact (c, env))))
  | step_add_event c env description effect :
      step c (fst (snd (Country.add_event description effect (c, env))))
  | step_tick c env :
      step c (fst (snd (Country.simulate_tick (c, env)))).

(** The states a session can reach from [Country(name)]. *)
Inductive reachable {interp : Interpreter} : Country.t -> Prop :=
  | reachable_new name : reachable (Country.new name)
  | reachable_step c c' : reachable c -> step c c' -> reachable c'.

(** An event log in chronological order, with no event before year 1
    or after year [y]. *)
Definition chronological (y : Z) (events : list Event.t) : Prop :=
  Forall (fun e => 1 <= Event.year e <= y) events
  /\ StronglySorted Z.le (map Event.year events).

(** A short session: [Country("Civica")], then a city, a law, an
    event and one tick. *)
Definition session_1 : Country.t :=
  fst (snd (Country.add_city "Avalon" 1000 (Some ["port"])
              (Country.new "Civica", sample_env))).
Definition session_2 : Country.t :=
  fst (snd (Country.add_law "Curfew" "Streets close at dusk."
              [("crime", -2); ("tax", 5)] (session_1, sample_env))).
Definition session_3 : Country.t :=
  fst (snd (Country.add_event "Famine" [("food", -6000); ("gold", 3)]
              (session_2, sample_env))).
Definition session_4 : Country.t :=
  fst (snd (Country.simulate_tick (interp := cpython)
              (session_3, sample_env))).

(** The environment after [n] more identifiers were issued, and the
    identifiers themselves. *)
Definition issue (n : nat) (env : Env) : Env :=
  mkEnv (draws env) (cursor env) (uuids env) (n + issued env).

Definition fresh_ids (env : Env) (n : nat) : list string :=
  map (uuids env) (seq (issued env) n).

(** A document with the five scalar fields of a saved country and no
    "cities" entry. *)
Definition torn_fields : list (string * json) :=
  [("name", JStr "Elsewhere"); ("description", JStr "A torn save file.");
   ("population", JInt 7); ("year", JInt 12);
   ("resources", JObject [("food", JInt 1)])].

Definition torn_document : json := JObject torn_fields.

(** How many times a character occurs in a string. *)
Fixpoint occurrences (ch : Ascii.ascii) (s : string) : nat :=
  match s with
  | EmptyString => 0%nat
  | String ch' rest =>
      ((if Ascii.eqb ch' ch then 1 else 0) + occurrences ch rest)%nat
  end.

(** Builtins good enough for plain input: [strip] drops the blanks at
    both ends, [int] reads an optionally signed decimal number. *)
Fixpoint lstrip (s : string) : string :=
  match s with
  | String " "%char rest => lstrip rest
  | _ => s
  end.

Fixpoint reverse (s acc : string) : string :=
  match s with
  | EmptyString => acc
  | String ch rest => reverse rest (String ch acc)
  end.

Definition plain_builtins : Builtins :=
  {| strip s := reverse (lstrip (reverse (lstrip s) "")) "";
     int s :=
       match NilZero.int_of_string s with
       | Some n => Ok (Z.of_int n)
       | None => Raise ValueError
       end |}.



(** ** Float ranges: when the growth formula cannot overflow *)


Section Digits.

Lemma digits2_pos_succ (p : positive) :
  Zpos (digits2_pos (Pos.succ p)) <= Zpos (digits2_pos p) + 1.
Proof.
  induction p as [p IH | p IH | ]; simpl; lia.
Qed.

Lemma Zdigits2_nonneg (m : Z) : 0 <= Zdigits2 m.
Proof. destruct m; simpl; lia. Qed.

Lemma Zdigits2_succ (m : Z) : 0 <= m -> Zdigits2 (m + 1) <= Zdigits2 m + 1.
Proof.
  destruct m as [ | p | p ]; intros Hm; simpl; try lia.
  rewrite Pos.add_1_r. apply digits2_pos_succ.
Qed.

Lemma digits2_pos_lower (p : positive) :
  2 ^ (Zpos (digits2_pos p) - 1) <= Zpos p.
Proof.
  induction p as [p IH | p IH | ]; simpl digits2_pos.
  - rewrite Pos2Z.inj_succ.
    replace (Z.succ (Zpos (digits2_pos p)) - 1) with (Z.succ (Zpos (digits2_pos p) - 1)) by lia.
    rewrite Z.pow_succ_r by lia. lia.
  - rewrite Pos2Z.inj_succ.
    replace (Z.succ (Zpos (digits2_pos p)) - 1) with (Z.succ (Zpos (digits2_pos p) - 1)) by lia.
    rewrite Z.pow_succ_r by lia. lia.
  - simpl. lia.
Qed.

Lemma digits2_pos_upper (p : positive) :
  Zpos p < 2 ^ Zpos (digits2_pos p).
Proof.
  induction p as [p IH | p IH | ]; simpl digits2_pos.
  - rewrite Pos2Z.inj_succ, Z.pow_succ_r by lia. lia.
  - rewrite Pos2Z.inj_succ, Z.pow_succ_r by lia. lia.
  - simpl. lia.
Qed.

Lemma digits2_pos_le (p : positive) (n : Z) :
  Zpos p < 2 ^ n -> Zpos (digits2_pos p) <= n.
Proof.
  intros H.
  destruct (Z_le_gt_dec (Zpos (digits2_pos p)) n) as [ | Hgt]; [assumption | exfalso].
  assert (0 <= n) by (destruct (Z_le_gt_dec 0 n); [assumption | rewrite Z.pow_neg_r in H; lia]).
  pose proof (digits2_pos_lower p) as Hlow.
  assert (2 ^ n <= 2 ^ (Zpos (digits2_pos p) - 1)) by (apply Z.pow_le_mono_r; lia).
  lia.
Qed.

Lemma digits2_pos_mul (p q : positive) :
  Zpos (digits2_pos (p * q)) <= Zpos (digits2_pos p) + Zpos (digits2_pos q).
Proof.
  apply digits2_pos_le.
  rewrite Z.pow_add_r by lia.
  pose proof (digits2_pos_upper p). pose proof (digits2_pos_upper q).
  rewrite Pos2Z.inj_mul. nia.
Qed.

Lemma digits2_pos_iter_xO (p k : positive) :
  Zpos (digits2_pos (Pos.iter xO p k)) = Zpos (digits2_pos p) + Zpos k.
Proof.
  induction k as [ | k IH] using Pos.peano_ind.
  - simpl. lia.
  - rewrite Pos.iter_succ. simpl digits2_pos. lia.
Qed.

End Digits.

Section Rounding.

Lemma fexp_binary64 (x : Z) : fexp 53 1024 x = Z.max (x - 53) (-1074).
Proof. reflexivity. Qed.

Lemma shr_1_digits (mrs : shr_record) :
  0 <= shr_m mrs ->
  0 <= shr_m (shr_1 mrs) /\
  Zdigits2 (shr_m (shr_1 mrs)) <= Z.max 0 (Zdigits2 (shr_m mrs) - 1).
Proof.
  destruct mrs as [m r s]; simpl; intros Hm.
  destruct m as [ | [p | p | ] | p ]; cbn [shr_1 shr_m Zdigits2 digits2_pos];
    rewrite ?Pos2Z.inj_succ; lia.
Qed.

Lemma iter_shr_1_digits (p : positive) : forall mrs : shr_record,
  0 <= shr_m mrs ->
  0 <= shr_m (iter_pos shr_1 p mrs) /\
  Zdigits2 (shr_m (iter_pos shr_1 p mrs))
    <= Z.max 0 (Zdigits2 (shr_m mrs) - Zpos p).
Proof.
  induction p as [p IH | p IH | ]; intros mrs Hm; simpl iter_pos.
  - destruct (shr_1_digits mrs Hm) as [H1 D1].
    destruct (IH _ H1) as [H2 D2].
    destruct (IH _ H2) as [H3 D3].
    split; [assumption | lia].
  - destruct (IH _ Hm) as [H2 D2].
    destruct (IH _ H2) as [H3 D3].
    split; [assumption | lia].
  - apply shr_1_digits; assumption.
Qed.

Lemma shr_digits (mrs : shr_record) (e n : Z) :
  0 <= shr_m mrs ->
  0 <= shr_m (fst (shr mrs e n)) /\
  snd (shr mrs e n) = e + Z.max 0 n /\
  Zdigits2 (shr_m (fst (shr mrs e n)))
    <= Z.max 0 (Zdigits2 (shr_m mrs) - Z.max 0 n).
Proof.
  intros Hm. pose proof (Zdigits2_nonneg (shr_m mrs)).
  destruct n as [ | p | p ]; simpl; try (repeat split; lia).
  destruct (iter_shr_1_digits p mrs Hm). repeat split; lia.
Qed.

Lemma shr_m_of_loc (m : Z) (l : location) :
  shr_m (shr_record_of_loc m l) = m.
Proof. destruct l as [ | [ | | ]]; reflexivity. Qed.

Lemma round_nearest_even_cases (m : Z) (l : location) :
  round_nearest_even m l = m \/ round_nearest_even m l = m + 1.
Proof.
  destruct l as [ | [ | | ]]; simpl; auto.
  destruct (Z.even m); auto.
Qed.

(** Rounding a non-negative mantissa whose magnitude stays below the
    overflow threshold gives a zero or a finite float. *)
Lemma binary_round_aux_bounded (s : bool) (m e : Z) (l : location) (B : Z) :
  0 <= m -> Zdigits2 m + e <= B -> e <= 971 -> -1074 <= B <= 1023 ->
  bounded_by 971 (B + 1) (binary_round_aux 53 1024 s m e l) = true.
Proof.
  intros Hm HB He HB'.
  unfold binary_round_aux, shr_fexp.
  set (n := fexp 53 1024 (Zdigits2 m + e) - e).
  pose proof (shr_digits (shr_record_of_loc m l) e n) as H1.
  rewrite shr_m_of_loc in H1. specialize (H1 Hm).
  destruct (shr (shr_record_of_loc m l) e n) as [mrs' e'].
  simpl fst in H1; simpl snd in H1. destruct H1 as (Hm' & He' & Hd').
  set (m1 := round_nearest_even (shr_m mrs') (loc_of_shr_record mrs')).
  assert (Hm1 : 0 <= m1 /\ Zdigits2 m1 <= Zdigits2 (shr_m mrs') + 1).
  { unfold m1.
    destruct (round_nearest_even_cases (shr_m mrs') (loc_of_shr_record mrs'))
      as [-> | ->].
    - split; lia.
    - split; [lia | apply Zdigits2_succ; assumption]. }
  destruct Hm1 as [Hm1 Hd1].
  set (n1 := fexp 53 1024 (Zdigits2 m1 + e') - e').
  pose proof (shr_digits (shr_record_of_loc m1 loc_Exact) e' n1) as H2.
  rewrite shr_m_of_loc in H2. specialize (H2 Hm1).
  destruct (shr (shr_record_of_loc m1 loc_Exact) e' n1) as [mrs'' e''].
  simpl fst in H2; simpl snd in H2. destruct H2 as (Hm'' & He'' & Hd'').
  pose proof (Zdigits2_nonneg m). pose proof (Zdigits2_nonneg m1).
  pose proof (Zdigits2_nonneg (shr_m mrs')).
  subst n n1. rewrite fexp_binary64 in *.
  assert (Hfin : e'' <= 971) by lia.
  change (1024 - 53) with 971.
  destruct (shr_m mrs'') as [ | p | p ] eqn:Em''; cbn [Zdigits2] in Hd''.
  - reflexivity.
  - replace (e'' <=? 971) with true by (symmetry; apply Z.leb_le; lia).
    cbn [bounded_by]. apply andb_true_intro; split; apply Z.leb_le; lia.
  - lia.
Qed.

End Rounding.

Section FloatRange.

Lemma bounded_by_finite (E B : Z) (f : spec_float) :
  bounded_by E B f = true -> Float.checked f = Ok f.
Proof. destruct f; simpl; intros H; try reflexivity; discriminate. Qed.

Lemma shl_align_digits (m : positive) (e e' : Z) :
  Zpos (digits2_pos (fst (shl_align m e e'))) + snd (shl_align m e e')
    = Zpos (digits2_pos m) + e
  /\ snd (shl_align m e e') <= e.
Proof.
  unfold shl_align. destruct (e' - e) as [ | d | d ] eqn:Ed; simpl fst; simpl snd.
  - lia.
  - lia.
  - rewrite digits2_pos_iter_xO. lia.
Qed.

Lemma of_int_bounded (z : Z) :
  Z.abs z < 2 ^ 1023 ->
  exists f, Float.of_int z = Ok f /\ bounded_by 971 1024 f = true.
Proof.
  intros Hz. unfold Float.of_int.
  assert (H : bounded_by 971 1024
                (binary_normalize Float.prec Float.emax z 0 false) = true).
  { destruct z as [ | m | m ]; [reflexivity | | ];
      cbn [binary_normalize]; unfold binary_round;
      pose proof (shl_align_digits m 0
                    (fexp Float.prec Float.emax (Zpos (digits2_pos m) + 0)))
        as [Hd He];
      destruct (shl_align m 0 _) as [mz ez]; simpl fst in Hd; simpl snd in Hd, He;
      assert (Zpos (digits2_pos m) <= 1023)
        by (apply digits2_pos_le; simpl Z.abs in Hz; lia);
      apply (binary_round_aux_bounded _ (Zpos mz) ez loc_Exact 1023);
      cbn [Zdigits2]; lia. }
  eexists; split; [apply (bounded_by_finite _ _ _ H) | exact H].
Qed.

Lemma mul_bounded (E1 B1 E2 B2 : Z) (x y : spec_float) :
  bounded_by E1 B1 x = true -> bounded_by E2 B2 y = true ->
  E1 + E2 <= 971 -> -1074 <= B1 + B2 <= 1023 ->
  bounded_by 971 (B1 + B2 + 1) (Float.mul x y) = true.
Proof.
  intros Hx Hy HE HB.
  destruct x as [sx | sx | | sx mx ex]; try discriminate;
    destruct y as [sy | sy | | sy my ey]; try discriminate; try reflexivity.
  cbn [bounded_by] in Hx, Hy.
  apply andb_prop in Hx as [Hx1 Hx2]. apply andb_prop in Hy as [Hy1 Hy2].
  apply Z.leb_le in Hx1, Hx2, Hy1, Hy2.
  unfold Float.mul, SFmul.
  apply binary_round_aux_bounded; try lia.
  cbn [Zdigits2]. pose proof (digits2_pos_mul mx my). lia.
Qed.

Lemma to_int_bounded (E B : Z) (f : spec_float) :
  bounded_by E B f = true -> exists z, Float.to_int f = Ok z.
Proof.
  destruct f; simpl; intros H; try discriminate; eexists; reflexivity.
Qed.

Lemma in_upto (n : nat) (z : Z) : 0 <= z <= Z.of_nat n -> In z (upto n).
Proof.
  intros Hz. unfold upto. apply in_map_iff. exists (Z.to_nat z).
  split; [lia | apply in_seq; lia].
Qed.

Lemma rate_table :
  forallb (fun e => forallb (rate_bounded e) (upto 100)) (upto 100) = true.
Proof. vm_compute. reflexivity. Qed.

Lemma growth_rate_bounded (economy crime : Z) :
  0 <= economy <= 100 -> 0 <= crime <= 100 ->
  exists f, City.growth_rate economy crime = Ok f /\ bounded_by 0 (-3) f = true.
Proof.
  intros He Hc. pose proof rate_table as H.
  rewrite forallb_forall in H. specialize (H economy (in_upto 100 _ He)).
  rewrite forallb_forall in H. specialize (H crime (in_upto 100 _ Hc)).
  unfold rate_bounded in H.
  destruct (City.growth_rate economy crime) as [f | ]; [ | discriminate].
  exists f; auto.
Qed.

Lemma growth_total (population economy crime : Z) :
  Z.abs population < 2 ^ 1023 ->
  0 <= economy <= 100 -> 0 <= crime <= 100 ->
  exists g, City.growth population economy crime = Ok g.
Proof.
  intros Hp He Hc.
  destruct (growth_rate_bounded economy crime He Hc) as (r & Hr & Br).
  destruct (of_int_bounded population Hp) as (p & Hp' & Bp).
  unfold City.growth. rewrite Hr, Hp'. cbn [and_then].
  apply (to_int_bounded 971 (1024 + -3 + 1)).
  apply (mul_bounded 971 1024 0 (-3)); auto; lia.
Qed.

End FloatRange.

(** ** Dictionaries: reading after writing *)

Section DictFacts.
Context {V : Type}.

Lemma lookup_set_eq (k : string) (v : V) (d : dict V) :
  lookup k (Dict.set k v d) = Some v.
Proof.
  induction d as [ | [k' v'] d IH]; simpl.
  - rewrite String.eqb_refl. reflexivity.
  - destruct (String.eqb k k') eqn:E; simpl; rewrite E; auto.
Qed.

Lemma lookup_set_neq (k k' : string) (v : V) (d : dict V) :
  k <> k' -> lookup k' (Dict.set k v d) = lookup k' d.
Proof.
  intros Hk. induction d as [ | [k0 v0] d IH]; simpl.
  - apply String.eqb_neq in Hk. rewrite String.eqb_sym, Hk. reflexivity.
  - destruct (String.eqb k k0) eqn:E; simpl.
    + apply String.eqb_eq in E. subst k0.
      apply String.eqb_neq in Hk. rewrite String.eqb_sym, Hk. reflexivity.
    + destruct (String.eqb k' k0); auto.
Qed.

End DictFacts.

(** ** The city update *)

Section CityUpdate.
Context {interp : Interpreter}.

Lemma randint_range (a b : Z) (env : Env) :
  a <= b -> a <= fst (randint a b env) <= b.
Proof.
  intros Hab. unfold randint, next_draw. simpl.
  pose proof (Z.mod_pos_bound (draws env (cursor env) - a) (b - a + 1)).
  lia.
Qed.

(** The law-effect loop on a mapping of the tick's two keys: it only
    touches crime and happiness, and clamps what it touches. *)
Lemma law_effect_loop (law_effects : dict Z) :
  tick_effects law_effects ->
  forall (c : City.t) (env : Env),
  exists c1,
    for_items law_effects City.apply_law_effect (c, env) = (Ok tt, (c1, env))
    /\ City.id c1 = City.id c /\ City.name c1 = City.name c
    /\ City.features c1 = City.features c
    /\ City.population c1 = City.population c
    /\ City.economy c1 = City.economy c
    /\ (in_percent (City.crime c) -> in_percent (City.crime c1))
    /\ (in_percent (City.happiness c) -> in_percent (City.happiness c1)).
Proof.
  unfold in_percent.
  induction law_effects as [ | [k v] le IH]; intros Hk c env.
  - exists c. simpl. repeat split; try tauto; lia.
  - inversion Hk as [ | k0 ks Hk0 Hks]; subst.
    simpl for_items. unfold bind.
    destruct Hk0 as [-> | ->]; cbn.
    + destruct (IH Hks
                  (City.with_crime (Z.max 0 (Z.min 100 (City.crime c + v))) c)
                  env) as (c1 & -> & H).
      exists c1. simpl in H. repeat split; try tauto; try lia.
    + destruct (IH Hks
                  (City.with_happiness
                     (Z.max 0 (Z.min 100 (City.happiness c + v))) c)
                  env) as (c1 & -> & H).
      exists c1. simpl in H. repeat split; try tauto; try lia.
Qed.

(** What one yearly update does on the tick's law effects: after the
    clamped steps the growth formula either yields the new population
    or raises, leaving the population as it was. *)
Lemma yearly_update_cases (law_effects : dict Z) (c : City.t) (env : Env) :
  tick_effects law_effects ->
  exists c1 env1,
    City.population c1 = City.population c
    /\ City.economy c1 <= 100
    /\ (0 <= City.economy c -> 0 <= City.economy c1)
    /\ in_percent (City.crime c1) /\ in_percent (City.happiness c1)
    /\ City.yearly_update law_effects (c, env) =
       match City.growth (City.population c1) (City.economy c1)
               (City.crime c1) with
       | Ok growth =>
           (Ok tt,
            (City.with_population
               (Z.max 0 (City.population c1 + growth)) c1, env1))
       | Raise e => (Raise e, (c1, env1))
       end.
Proof.
  intros Hk.
  destruct (law_effect_loop law_effects Hk c env)
    as (c0 & Hloop & _ & _ & _ & Hpop & Heco & _ & _).
  unfold City.yearly_update. unfold bind at 1. rewrite Hloop.
  pose proof (randint_range 0 2 env ltac:(lia)) as R1.
  destruct (randint 0 2 env) as [d1 e1] eqn:E1.
  pose proof (randint_range (-1) 2 e1 ltac:(lia)) as R2.
  destruct (randint (-1) 2 e1) as [d2 e2] eqn:E2.
  pose proof (randint_range (-1) 1 e2 ltac:(lia)) as R3.
  destruct (randint (-1) 1 e2) as [d3 e3] eqn:E3.
  simpl fst in R1, R2, R3.
  eexists (City.with_crime _ (City.with_happiness _ (City.with_economy _ c0))).
  exists e3.
  unfold bind, draw, update, self, lift_result; cbn [fst snd].
  rewrite E1; cbn [fst snd]. rewrite E2; cbn [fst snd]. rewrite E3; cbn [fst snd].
  unfold in_percent. cbn.
  repeat split; lia.
Qed.

End CityUpdate.

Section CityClaims.
Context {interp : Interpreter}.

(** C3. A city whose economy, crime and happiness are in [0,100] and
    whose population is non-negative is in the same condition after
    [yearly_update] on a law-effect mapping with the keys "crime" and
    "happiness", whatever the random draws; this holds of the city
    object however the call ends, and the call returns normally when
    the population is below 2^1023. *)
Theorem yearly_update_keeps_city_valid
    (law_effects : dict Z) (c : City.t) (env : Env) :
  city_valid c -> tick_effects law_effects ->
  let '(r, (c', _)) := City.yearly_update law_effects (c, env) in
  city_valid c' /\ (City.population c < 2 ^ 1023 -> r = Ok tt).
Proof.
  intros (He & Hc & Hh & Hp) Hk.
  destruct (yearly_update_cases law_effects c env Hk)
    as (c1 & env1 & Hpop & Hle & Hge & Hc1 & Hh1 & ->).
  assert (He1 : in_percent (City.economy c1))
    by (unfold in_percent in *; lia).
  destruct (City.growth _ _ _) as [g | e] eqn:Eg.
  - split; [ | reflexivity].
    unfold city_valid, in_percent in *; cbn -[Z.max Z.add]. lia.
  - split.
    + unfold city_valid. rewrite Hpop. tauto.
    + intros Hlt.
      destruct (growth_total (City.population c1) (City.economy c1)
                  (City.crime c1)) as [g Hg]; try assumption; try lia.
      congruence.
Qed.

(** C4. With every random draw pinned to 0, [yearly_update] on a city
    with population 1000, economy 50, crime 10, happiness 50 and law
    effects {crime: 0, happiness: 0} computes a growth of 55: the
    population becomes 1055, economy, crime and happiness stay 50, 10
    and 50. *)
Theorem yearly_update_pinned_draws
    (id name : string) (features : list string)
    (consumed issued : nat) (uuids : nat -> string) :
  City.growth 1000 50 10 = Ok 55
  /\ City.yearly_update [("crime", 0); ("happiness", 0)]
       (City.mk id name 1000 50 10 50 features,
        mkEnv (fun _ => 0) consumed uuids issued)
     = (Ok tt,
        (City.mk id name 1055 50 10 50 features,
         mkEnv (fun _ => 0) (3 + consumed) uuids issued)).
Proof. split; vm_compute; reflexivity. Qed.

End CityClaims.

(** ** Law effects *)

Section LawEffects.

Lemma add_impact_pair (a b : Z) (k : string) (v : Z) :
  Country.add_impact [("crime", a); ("happiness", b)] k v =
  [("crime", a + (if String.eqb k "crime" then v else 0));
   ("happiness", b + (if String.eqb k "happiness" then v else 0))].
Proof.
  unfold Country.add_impact. simpl.
  destruct (String.eqb k "crime") eqn:Ec.
  - apply String.eqb_eq in Ec. subst k. simpl. now rewrite Z.add_0_r.
  - destruct (String.eqb k "happiness") eqn:Eh; simpl; rewrite ?Ec, ?Eh;
      now rewrite ?Z.add_0_r.
Qed.

Lemma impact_loop (impact : dict Z) : forall a b : Z,
  fold_left (fun le kv => Country.add_impact le (fst kv) (snd kv)) impact
            [("crime", a); ("happiness", b)] =
  [("crime", a + impact_total "crime" impact);
   ("happiness", b + impact_total "happiness" impact)].
Proof.
  induction impact as [ | [k v] impact IH]; intros a b; simpl.
  - now rewrite !Z.add_0_r.
  - rewrite add_impact_pair, IH.
    destruct (String.eqb k "crime"), (String.eqb k "happiness");
      now rewrite !Z.add_assoc.
Qed.

Lemma law_loop (laws : list Law.t) : forall a b : Z,
  fold_left
    (fun law_effects law =>
       fold_left (fun le kv => Country.add_impact le (fst kv) (snd kv))
                 (Law.impact law) law_effects)
    laws [("crime", a); ("happiness", b)] =
  [("crime", a + laws_total "crime" laws);
   ("happiness", b + laws_total "happiness" laws)].
Proof.
  induction laws as [ | l laws IH]; intros a b; simpl.
  - now rewrite !Z.add_0_r.
  - rewrite impact_loop, IH. unfold laws_total; simpl.
    now rewrite !Z.add_assoc.
Qed.

(** The aggregated law effects are the two totals. *)
Lemma cumulative_law_effects_totals (laws : list Law.t) :
  Country.cumulative_law_effects laws =
  [("crime", laws_total "crime" laws);
   ("happiness", laws_total "happiness" laws)].
Proof. unfold Country.cumulative_law_effects. now rewrite law_loop. Qed.

Lemma cumulative_law_effects_keys (laws : list Law.t) :
  tick_effects (Country.cumulative_law_effects laws).
Proof.
  rewrite cumulative_law_effects_totals. unfold tick_effects. simpl.
  constructor; [left; reflexivity | ].
  constructor; [right; reflexivity | constructor].
Qed.

Lemma sum_permutation (l l' : list Z) :
  Permutation l l' -> fold_right Z.add 0 l = fold_right Z.add 0 l'.
Proof. induction 1; simpl; lia. Qed.

Lemma laws_total_permutation (k : string) (laws laws' : list Law.t) :
  Permutation laws laws' -> laws_total k laws = laws_total k laws'.
Proof.
  intros H. unfold laws_total.
  apply sum_permutation, Permutation_map, H.
Qed.

Lemma impact_total_restrict (k : string) (l : Law.t) :
  k = "crime" \/ k = "happiness" ->
  impact_total k (Law.impact (restrict_impact l)) =
  impact_total k (Law.impact l).
Proof.
  intros Hk. simpl. induction (Law.impact l) as [ | [k' v] d IH]; simpl.
  - reflexivity.
  - destruct (String.eqb k' "crime") eqn:Ec;
      destruct (String.eqb k' "happiness") eqn:Eh; simpl; rewrite IH; auto.
    destruct Hk as [-> | ->]; now rewrite ?Ec, ?Eh.
Qed.

Lemma laws_total_restrict (k : string) (laws : list Law.t) :
  k = "crime" \/ k = "happiness" ->
  laws_total k (map restrict_impact laws) = laws_total k laws.
Proof.
  intros Hk. unfold laws_total. rewrite map_map. f_equal.
  apply map_ext. intros l. apply impact_total_restrict, Hk.
Qed.

(** C7. Permuting the laws leaves the aggregated "crime" and
    "happiness" totals unchanged, and impact keys outside these two
    contribute nothing: dropping them from every law gives the same
    result. *)
Theorem law_effects_order_independent (laws laws' : list Law.t) :
  Permutation laws laws' ->
  Country.cumulative_law_effects laws = Country.cumulative_law_effects laws'
  /\ Country.cumulative_law_effects (map restrict_impact laws) =
     Country.cumulative_law_effects laws.
Proof.
  intros H. rewrite !cumulative_law_effects_totals. split.
  - now rewrite (laws_total_permutation "crime" _ _ H),
                (laws_total_permutation "happiness" _ _ H).
  - rewrite !laws_total_restrict; auto.
Qed.

End LawEffects.

(** ** The national tick, step by step *)

Ltac run_method :=
  cbv beta iota zeta delta
    [bind ret raise self update draw lift_result Country.resource
     Country.set_resource Country.add_resource Country.append_event getitem
     Event.new];
  cbn [fst snd Country.name Country.description Country.population
       Country.cities Country.laws Country.events Country.year
       Country.resources Country.with_name Country.with_description
       Country.with_population Country.with_cities Country.with_laws
       Country.with_events Country.with_year Country.with_resources].

Ltac dict_simpl :=
  unfold pool_ok, reputation_ok, mem in *;
  repeat (rewrite lookup_set_eq in * || rewrite lookup_set_neq in * by discriminate).

Ltac split_lookup :=
  match goal with
  | |- context [match lookup ?k (Country.resources ?c) with _ => _ end] =>
      let E := fresh "E" in
      destruct (lookup k (Country.resources c)) eqn:E
  end.

Ltac split_if :=
  match goal with
  | |- context [if ?b then _ else _] =>
      let E := fresh "E" in destruct b eqn:E
  end.

Ltac run_steps :=
  repeat (run_method; rewrite ?lookup_set_eq;
          rewrite ?lookup_set_neq by discriminate;
          try split_lookup; try split_if).

Ltac finish_step :=
  let H := fresh in
  intros H; injection H as <- <- <-;
  cbn [Country.name Country.description Country.population
       Country.cities Country.laws Country.events Country.year
       Country.resources Country.with_name Country.with_description
       Country.with_population Country.with_cities Country.with_laws
       Country.with_events Country.with_year Country.with_resources];
  dict_simpl;
  repeat match goal with
         | H : lookup _ _ = _ |- _ => rewrite H in *
         end;
  intuition (try discriminate; try congruence);
  try (eexists; split; [reflexivity | unfold in_percent; lia]).

#[local] Opaque randint random choice uuid4.

Section TickSteps.
Context {interp : Interpreter}.

Lemma update_cities_cases (law_effects : dict Z) :
  tick_effects law_effects ->
  forall (cities cities' : list City.t) (total : Z) (env env' : Env)
         (r : result Z),
  Country.update_cities law_effects cities total env = (r, (cities', env')) ->
  List.length cities' = List.length cities
  /\ (forall t, r = Ok t ->
      t = total + fold_right Z.add 0 (map City.population cities')
      /\ Forall (fun c => 0 <= City.population c) cities')
  /\ (Forall city_safe cities -> exists t, r = Ok t).
Proof.
  intros Hk. induction cities as [ | city rest IH];
    intros cities' total env env' r; simpl.
  - intros H; injection H as <- <- <-.
    split; [reflexivity | split].
    + intros t Ht; injection Ht as <-. split; [simpl; lia | constructor].
    + intros _. eauto.
  - destruct (yearly_update_cases law_effects city env Hk)
      as (c1 & env1 & Hpop & Hle & Hge & Hc1 & Hh1 & ->).
    destruct (City.growth _ _ _) as [g | e] eqn:Eg.
    + destruct (Country.update_cities law_effects rest _ env1)
        as [r' [rest' env'']] eqn:Er.
      destruct (IH _ _ _ _ _ Er) as (Hlen & Htot & Hsafe).
      intros H; injection H as <- <- <-.
      split; [simpl; now rewrite Hlen | split].
      * intros t Ht. destruct (Htot t Ht) as [Hsum Hf].
        cbn [City.population City.with_population] in Hsum.
        split; [simpl; lia | constructor; [simpl; lia | exact Hf]].
      * intros Hs. inversion Hs; subst. auto.
    + intros H; injection H as <- <- <-.
      split; [reflexivity | split; [discriminate | ]].
      intros Hs. inversion Hs as [ | ? ? [He0 Hp0] ?]; subst.
      destruct (growth_total (City.population c1) (City.economy c1)
                  (City.crime c1)) as [g Hg];
        try assumption; try lia; congruence.
Qed.

Lemma sum_nonneg (l : list Z) :
  Forall (fun z => 0 <= z) l -> 0 <= fold_right Z.add 0 l.
Proof. induction 1; simpl; lia. Qed.

Lemma update_cities_step_cases (c c' : Country.t) (env env' : Env)
    (r : result unit) :
  Country.update_cities_step (c, env) = (r, (c', env')) ->
  Country.year c' = Country.year c
  /\ Country.resources c' = Country.resources c
  /\ Country.events c' = Country.events c
  /\ (0 <= Country.population c -> 0 <= Country.population c')
  /\ (Forall city_safe (Country.cities c) -> r = Ok tt)
  /\ (r = Ok tt -> Country.cities c' <> [] ->
      Country.population c' =
      fold_right Z.add 0 (map City.population (Country.cities c'))
      /\ Forall (fun city => 0 <= City.population city) (Country.cities c')).
Proof.
  unfold Country.update_cities_step.
  destruct (Country.update_cities _ (Country.cities c) 0 env)
    as [r0 [cities' env0]] eqn:Eu.
  destruct (update_cities_cases _ (cumulative_law_effects_keys _)
              _ _ _ _ _ _ Eu) as (Hlen & Htot & Hsafe).
  destruct r0 as [t | e]; intros H; injection H as <- <- <-; simpl.
  - destruct (Htot t eq_refl) as [Ht Hf].
    assert (0 <= t).
    { rewrite Ht. apply Z.add_nonneg_nonneg; [lia | ].
      apply sum_nonneg. rewrite Forall_map. exact Hf. }
    repeat split; auto.
    + destruct cities'; simpl; lia.
    + destruct cities'; [congruence | lia].
  - repeat split; auto; try discriminate.
    intros Hs. destruct (Hsafe Hs); discriminate.
Qed.

Lemma update_cities_step_no_cities (c : Country.t) (env : Env) :
  Country.cities c = [] ->
  Country.update_cities_step (c, env) = (Ok tt, (c, env)).
Proof.
  intros Hc. unfold Country.update_cities_step. rewrite Hc. simpl.
  destruct c; simpl in *. subst. reflexivity.
Qed.

Lemma national_resources_step_cases (c c' : Country.t) (env env' : Env)
    (r : result unit) :
  Country.national_resources_step (c, env) = (r, (c', env')) ->
  Country.year c' = Country.year c
  /\ Country.events c' = Country.events c
  /\ Country.population c' = Country.population c
  /\ Country.cities c' = Country.cities c
  /\ (pool_ok (Country.resources c) -> r = Ok tt)
  /\ (r = Ok tt ->
      pool_ok (Country.resources c') /\ reputation_ok (Country.resources c'))
  /\ (reputation_ok (Country.resources c) ->
      reputation_ok (Country.resources c')).
Proof.
  unfold Country.national_resources_step. run_steps; finish_step.
Qed.

Lemma random_event_step_cases (c c' : Country.t) (env env' : Env)
    (r : result unit) :
  Country.random_event_step (c, env) = (r, (c', env')) ->
  Country.year c' = Country.year c
  /\ Country.population c' = Country.population c
  /\ (pool_ok (Country.resources c) ->
      r = Ok tt /\ pool_ok (Country.resources c'))
  /\ (lookup "reputation" (Country.resources c') =
        lookup "reputation" (Country.resources c)
      \/ exists id,
           Country.events c' =
           Country.events c ++ [good_event id (Country.year c)])
  /\ (forall f, lookup "food" (Country.resources c) = Some f ->
      exists f', lookup "food" (Country.resources c') = Some f' /\ f' <= f)
  /\ (exists evs, (List.length evs <= 1)%nat /\ Country.events c' = Country.events c ++ evs).
Proof.
  unfold Country.random_event_step. run_steps; finish_step.
  all: try (right; eexists; reflexivity).
  all: try (exists []; split; [simpl; lia | now rewrite app_nil_r]).
  all: try (eexists; split; [ | reflexivity]; simpl; lia).
  all: repeat match goal with
              | H : Some _ = Some _ |- _ => injection H as H; subst
              end.
  all: eexists; split; [eassumption || reflexivity | lia].
Qed.

Lemma starvation_step_cases (c c' : Country.t) (env env' : Env)
    (r : result unit) :
  Country.starvation_step (c, env) = (r, (c', env')) ->
  Country.year c' = Country.year c
  /\ (pool_ok (Country.resources c) ->
      r = Ok tt /\ pool_ok (Country.resources c'))
  /\ (0 <= Country.population c -> 0 <= Country.population c')
  /\ lookup "reputation" (Country.resources c') =
     lookup "reputation" (Country.resources c)
  /\ (r = Ok tt ->
      exists f, lookup "food" (Country.resources c') = Some f /\ 0 <= f)
  /\ (exists evs, (List.length evs <= 1)%nat
                  /\ Country.events c' = Country.events c ++ evs)
  /\ (forall f, lookup "food" (Country.resources c) = Some f -> f < 0 ->
      r = Ok tt
      /\ lookup "food" (Country.resources c') = Some 0
      /\ Country.population c' =
         Country.population c
         - Z.min (Country.population c / 10) (Country.population c)
      /\ exists id,
           Country.events c' =
           Country.events c ++ [starvation_event id (Country.year c)]).
Proof.
  unfold Country.starvation_step. run_steps; finish_step.
  all: repeat match goal with
              | H : Some _ = Some _ |- _ => injection H as H; subst
              end.
  all: try lia.
  all: try (eexists; reflexivity).
  all: try (exists []; split; [simpl; lia | now rewrite app_nil_r]).
  all: eexists; split; [ | reflexivity]; simpl; lia.
Qed.

Lemma late_steps_keep_cities (c c' : Country.t) (env env' : Env)
    (r : result unit) :
  Country.random_event_step (c, env) = (r, (c', env'))
  \/ Country.starvation_step (c, env) = (r, (c', env')) ->
  Country.cities c' = Country.cities c.
Proof.
  unfold Country.random_event_step, Country.starvation_step.
  intros [H | H]; revert H; run_steps; finish_step.
Qed.

Lemma bind_ok_inv {St A B} (m : M St A) (k : A -> M St B) (s s' : St) (b : B) :
  bind m k s = (Ok b, s') ->
  exists a s1, m s = (Ok a, s1) /\ k a s1 = (Ok b, s').
Proof.
  unfold bind. destruct (m s) as [[a | e] s1]; [eauto | discriminate].
Qed.

Lemma year_advance_step_run (c : Country.t) (env : Env) :
  Country.year_advance_step (c, env) =
  (Ok tt, (Country.with_year (Country.year c + 1) c, env)).
Proof. reflexivity. Qed.

(** The tick as its five steps in a row. *)
Lemma simulate_tick_steps (s : Country.t * Env) :
  Country.simulate_tick s =
  match Country.update_cities_step s with
  | (Ok _, s1) =>
      match Country.national_resources_step s1 with
      | (Ok _, s2) =>
          match Country.random_event_step s2 with
          | (Ok _, s3) =>
              match Country.starvation_step s3 with
              | (Ok _, s4) => Country.year_advance_step s4
              | (Raise e, s4) => (Raise e, s4)
              end
          | (Raise e, s3) => (Raise e, s3)
          end
      | (Raise e, s2) => (Raise e, s2)
      end
  | (Raise e, s1) => (Raise e, s1)
  end.
Proof. reflexivity. Qed.

(** On a country with its four resources and safe cities every step
    of the tick returns normally. *)
Lemma simulate_tick_total (c : Country.t) (env : Env) :
  pool_ok (Country.resources c) -> Forall city_safe (Country.cities c) ->
  exists c1 env1 c2 env2 c3 env3 c4 env4,
    Country.update_cities_step (c, env) = (Ok tt, (c1, env1))
    /\ Country.national_resources_step (c1, env1) = (Ok tt, (c2, env2))
    /\ Country.random_event_step (c2, env2) = (Ok tt, (c3, env3))
    /\ Country.starvation_step (c3, env3) = (Ok tt, (c4, env4))
    /\ Country.simulate_tick (c, env) =
       (Ok tt, (Country.with_year (Country.year c4 + 1) c4, env4)).
Proof.
  intros Hpool Hsafe. rewrite simulate_tick_steps.
  destruct (Country.update_cities_step (c, env)) as [r1 [c1 env1]] eqn:E1.
  destruct (update_cities_step_cases _ _ _ _ _ E1)
    as (_ & Hres1 & _ & _ & Hok1 & _).
  rewrite (Hok1 Hsafe) in *. rewrite <- Hres1 in Hpool.
  destruct (Country.national_resources_step (c1, env1))
    as [r2 [c2 env2]] eqn:E2.
  destruct (national_resources_step_cases _ _ _ _ _ E2)
    as (_ & _ & _ & _ & Hok2 & Hpool2 & _).
  rewrite (Hok2 Hpool) in *. destruct (Hpool2 eq_refl) as [Hp2 _].
  destruct (Country.random_event_step (c2, env2)) as [r3 [c3 env3]] eqn:E3.
  destruct (random_event_step_cases _ _ _ _ _ E3) as (_ & _ & Hok3 & _).
  destruct (Hok3 Hp2) as [-> Hp3].
  destruct (Country.starvation_step (c3, env3)) as [r4 [c4 env4]] eqn:E4.
  destruct (starvation_step_cases _ _ _ _ _ E4) as (_ & Hok4 & _).
  destruct (Hok4 Hp3) as [-> Hp4].
  exists c1, env1, c2, env2, c3, env3, c4, env4.
  repeat split; assumption || reflexivity.
Qed.

(** Every run of the tick: a run that returns has advanced the year by
    one and left a non-negative food value; a run that raises has left
    the year as it was. *)
Lemma simulate_tick_cases (c c' : Country.t) (env env' : Env)
    (r : result unit) :
  Country.simulate_tick (c, env) = (r, (c', env')) ->
  match r with
  | Ok _ =>
      Country.year c' = Country.year c + 1
      /\ exists f, lookup "food" (Country.resources c') = Some f /\ 0 <= f
  | Raise _ => Country.year c' = Country.year c
  end.
Proof.
  rewrite simulate_tick_steps.
  destruct (Country.update_cities_step (c, env)) as [r1 [c1 env1]] eqn:E1.
  destruct (update_cities_step_cases _ _ _ _ _ E1) as (Y1 & _).
  destruct r1 as [[] | e];
    [ | intros H; injection H as <- <- <-; exact Y1].
  destruct (Country.national_resources_step (c1, env1))
    as [r2 [c2 env2]] eqn:E2.
  destruct (national_resources_step_cases _ _ _ _ _ E2) as (Y2 & _).
  destruct r2 as [[] | e];
    [ | intros H; injection H as <- <- <-; congruence].
  destruct (Country.random_event_step (c2, env2)) as [r3 [c3 env3]] eqn:E3.
  destruct (random_event_step_cases _ _ _ _ _ E3) as (Y3 & _).
  destruct r3 as [[] | e];
    [ | intros H; injection H as <- <- <-; congruence].
  destruct (Country.starvation_step (c3, env3)) as [r4 [c4 env4]] eqn:E4.
  destruct (starvation_step_cases _ _ _ _ _ E4)
    as (Y4 & _ & _ & _ & F & _).
  destruct r4 as [[] | e];
    [ | intros H; injection H as <- <- <-; congruence].
  rewrite year_advance_step_run. intros H; injection H as <- <- <-.
  split; [simpl; congruence | exact (F eq_refl)].
Qed.



(** C10. A country whose population is non-negative has a
    non-negative population after [simulate_tick], whatever the random
    draws and however the tick ends (the cities' populations need not
    be assumed non-negative, the city update clamps them): a
    population recomputed from the cities is a sum of non-negative
    city populations, and the starvation loss min(p // 10, p) never
    exceeds a non-negative p. *)
Theorem simulate_tick_population_nonneg (c : Country.t) (env : Env) :
  0 <= Country.population c ->
  0 <= Country.population (fst (snd (Country.simulate_tick (c, env))))
  /\ (forall r c1 env1,
        Country.update_cities_step (c, env) = (r, (c1, env1)) ->
        r = Ok tt -> Country.cities c1 <> [] ->
        Country.population c1 =
        fold_right Z.add 0 (map City.population (Country.cities c1))
        /\ Forall (fun city => 0 <= City.population city)
                  (Country.cities c1))
  /\ (forall p, 0 <= p -> 0 <= Z.min (p / 10) p <= p).
Proof.
  intros Hpop. split; [ | split].
  - rewrite simulate_tick_steps.
    destruct (Country.update_cities_step (c, env)) as [r1 [c1 env1]] eqn:E1.
    destruct (update_cities_step_cases _ _ _ _ _ E1)
      as (_ & _ & _ & P1 & _).
    specialize (P1 Hpop).
    destruct r1 as [[] | e]; [ | exact P1].
    destruct (Country.national_resources_step (c1, env1))
      as [r2 [c2 env2]] eqn:E2.
    destruct (national_resources_step_cases _ _ _ _ _ E2)
      as (_ & _ & P2 & _).
    destruct r2 as [[] | e]; [ | simpl; lia].
    destruct (Country.random_event_step (c2, env2)) as [r3 [c3 env3]] eqn:E3.
    destruct (random_event_step_cases _ _ _ _ _ E3) as (_ & P3 & _).
    destruct r3 as [[] | e]; [ | simpl; lia].
    destruct (Country.starvation_step (c3, env3)) as [r4 [c4 env4]] eqn:E4.
    destruct (starvation_step_cases _ _ _ _ _ E4) as (_ & _ & P4 & _).
    assert (0 <= Country.population c4) by (apply P4; lia).
    destruct r4 as [[] | e]; simpl; assumption.
  - intros r c1 env1 E1 Hr Hne.
    destruct (update_cities_step_cases _ _ _ _ _ E1)
      as (_ & _ & _ & _ & _ & S).
    exact (S Hr Hne).
  - intros p Hp.
    assert (0 <= p / 10) by (apply Z.div_pos; lia). lia.
Qed.

(** C8. On a country without cities the city step (steps 1 to 3)
    changes nothing, the national population included; the tick is
    then the resource, event, starvation and year steps run from the
    unchanged state, and with the four resources in place it returns
    normally with the year advanced. *)
Theorem simulate_tick_without_cities (c : Country.t) (env : Env) :
  Country.cities c = [] ->
  Country.update_cities_step (c, env) = (Ok tt, (c, env))
  /\ Country.simulate_tick (c, env) =
     (Country.national_resources_step ;; Country.random_event_step ;;
      Country.starvation_step ;; Country.year_advance_step) (c, env)
  /\ (pool_ok (Country.resources c) ->
      exists c' env',
        Country.simulate_tick (c, env) = (Ok tt, (c', env'))
        /\ Country.cities c' = [] /\ Country.year c' = Country.year c + 1).
Proof.
  intros Hc.
  pose proof (update_cities_step_no_cities c env Hc) as E0.
  split; [exact E0 | split].
  - unfold Country.simulate_tick. unfold bind at 1. rewrite E0. reflexivity.
  - intros Hpool.
    assert (Hsafe : Forall city_safe (Country.cities c))
      by (rewrite Hc; constructor).
    destruct (simulate_tick_total c env Hpool Hsafe)
      as (c1 & env1 & c2 & env2 & c3 & env3 & c4 & env4
          & E1 & E2 & E3 & E4 & ->).
    rewrite E0 in E1. injection E1 as <- <-.
    destruct (national_resources_step_cases _ _ _ _ _ E2)
      as (Y2 & _ & _ & C2 & _).
    destruct (random_event_step_cases _ _ _ _ _ E3) as (Y3 & _).
    destruct (starvation_step_cases _ _ _ _ _ E4) as (Y4 & _).
    eexists _, _. split; [reflexivity | ]. simpl. split; [ | congruence].
    rewrite (late_steps_keep_cities _ _ _ _ _ (or_intror E4)),
      (late_steps_keep_cities _ _ _ _ _ (or_introl E3)).
    congruence.
Qed.

(** C2. When the state after step 5 of a tick has
    resources["food"] = -50 and population 200, the tick ends with
    food 0 and population 180, and its last event is "Starvation
    strikes the nation!" tagged with the year before the increment,
    whatever the random event roll of step 6 appended before it. *)
Theorem starvation_after_step_5
    (c c5 : Country.t) (env env5 : Env) :
  (Country.update_cities_step ;; Country.national_resources_step) (c, env)
    = (Ok tt, (c5, env5)) ->
  lookup "food" (Country.resources c5) = Some (-50) ->
  Country.population c5 = 200 ->
  exists c' env' id rolled,
    Country.simulate_tick (c, env) = (Ok tt, (c', env'))
    /\ lookup "food" (Country.resources c') = Some 0
    /\ Country.population c' = 180
    /\ Country.events c' =
       Country.events c5 ++ rolled ++ [starvation_event id (Country.year c)]
    /\ (List.length rolled <= 1)%nat
    /\ Country.year c' = Country.year c + 1.
Proof.
  intros H5 Hfood Hpop.
  apply bind_ok_inv in H5 as ([] & [c1 env1] & E1 & E2).
  rewrite simulate_tick_steps, E1, E2.
  destruct (update_cities_step_cases _ _ _ _ _ E1) as (Y1 & _).
  destruct (national_resources_step_cases _ _ _ _ _ E2)
    as (Y2 & _ & _ & _ & _ & Hpool & _).
  destruct (Hpool eq_refl) as [Hp5 _].
  destruct (Country.random_event_step (c5, env5)) as [r3 [c3 env3]] eqn:E3.
  destruct (random_event_step_cases _ _ _ _ _ E3)
    as (Y3 & P3 & Hok3 & _ & F3 & (rolled & Hlen & Ev3)).
  destruct (Hok3 Hp5) as [-> Hp3].
  destruct (F3 _ Hfood) as (f & Hf & Hle).
  destruct (Country.starvation_step (c3, env3)) as [r4 [c4 env4]] eqn:E4.
  destruct (starvation_step_cases _ _ _ _ _ E4)
    as (Y4 & _ & _ & _ & _ & _ & S).
  destruct (S f Hf ltac:(lia)) as (-> & H0 & P4 & (id & Ev4)).
  rewrite year_advance_step_run.
  eexists _, _, id, rolled. split; [reflexivity | ]. simpl.
  repeat split.
  - exact H0.
  - rewrite P4, P3, Hpop. reflexivity.
  - rewrite Ev4, Ev3, <- app_assoc, Y3, Y2, Y1. reflexivity.
  - exact Hlen.
  - congruence.
Qed.

Lemma lookup_absent {V} (k : string) (d : dict V) :
  ~ In k (keys d) -> lookup k d = None.
Proof.
  induction d as [ | [k' v] d IH]; simpl; intros H; [reflexivity | ].
  destruct (String.eqb k k') eqn:E.
  - apply String.eqb_eq in E. subst. tauto.
  - apply IH. tauto.
Qed.

Lemma apply_effect_run (k : string) (v : Z) (c : Country.t) (env : Env) :
  Country.apply_effect k v (c, env) =
  (Ok tt,
   (match lookup k (Country.resources c) with
    | Some x =>
        Country.with_resources (Dict.set k (x + v) (Country.resources c)) c
    | None => c
    end, env)).
Proof.
  unfold Country.apply_effect, mem. run_method.
  destruct (lookup k (Country.resources c)) eqn:E; run_method;
    rewrite ?E; reflexivity.
Qed.

(** The effect loop of [add_event] never raises; it adds each delta to
    the resource it names and touches nothing else. *)
Lemma effect_loop (effect : dict Z) :
  Dict.wf effect ->
  forall (c : Country.t) (env : Env),
  exists res,
    for_items effect Country.apply_effect (c, env)
    = (Ok tt, (Country.with_resources res c, env))
    /\ forall k, lookup k res
                 = applied (lookup k (Country.resources c)) (lookup k effect).
Proof.
  unfold Dict.wf.
  induction effect as [ | [k0 v0] effect IH]; intros Hwf c env.
  - exists (Country.resources c). split.
    + destruct c; reflexivity.
    + intros k. simpl. now destruct (lookup k (Country.resources c)).
  - simpl in Hwf. inversion Hwf as [ | ? ? Hnotin Hwf']; subst.
    simpl for_items. unfold bind. rewrite apply_effect_run.
    destruct (lookup k0 (Country.resources c)) as [x | ] eqn:Ex.
    + destruct (IH Hwf'
                  (Country.with_resources
                     (Dict.set k0 (x + v0) (Country.resources c)) c) env)
        as (res & -> & Hres).
      exists res. split; [reflexivity | ].
      intros k. rewrite Hres. simpl.
      destruct (String.eqb k k0) eqn:E.
      * apply String.eqb_eq in E. subst k.
        rewrite lookup_set_eq, Ex, (lookup_absent _ _ Hnotin). reflexivity.
      * rewrite lookup_set_neq; [reflexivity | ].
        intros ->. now rewrite String.eqb_refl in E.
    + destruct (IH Hwf' c env) as (res & -> & Hres).
      exists res. split; [reflexivity | ].
      intros k. rewrite Hres. simpl.
      destruct (String.eqb k k0) eqn:E; [ | reflexivity].
      apply String.eqb_eq in E. subst k.
      rewrite Ex. reflexivity.
Qed.

(** C1 (as amended). [add_event] never raises and applies the
    effect's "reputation" delta unclamped: the reputation afterwards
    is the previous one plus the delta (unchanged when the effect has
    none).  [simulate_tick] on a country whose reputation is in
    [0,100] leaves it in [0,100], however the tick ends, unless the
    good event was appended during the tick. *)
Theorem reputation_after_mutations
    (c : Country.t) (env : Env) (description : string) (effect : dict Z) :
  Dict.wf effect -> reputation_ok (Country.resources c) ->
  (exists c' env',
     Country.add_event description effect (c, env) = (Ok tt, (c', env'))
     /\ lookup "reputation" (Country.resources c')
        = applied (lookup "reputation" (Country.resources c))
                  (lookup "reputation" effect))
  /\ (let c' := fst (snd (Country.simulate_tick (c, env))) in
      reputation_ok (Country.resources c')
      \/ exists id rest,
           Country.events c' =
           Country.events c ++ good_event id (Country.year c) :: rest).
Proof.
  intros Hwf Hrep. split.
  - unfold Country.add_event. run_method.
    match goal with
    | |- context [for_items effect ?body (?c1, ?env1)] =>
        destruct (effect_loop effect Hwf c1 env1) as (res & -> & Hres)
    end.
    eexists _, _. split; [reflexivity | ]. simpl. apply Hres.
  - cbv zeta. rewrite simulate_tick_steps.
    destruct (Country.update_cities_step (c, env)) as [r1 [c1 env1]] eqn:E1.
    destruct (update_cities_step_cases _ _ _ _ _ E1)
      as (Y1 & R1 & V1 & _).
    rewrite <- R1 in Hrep.
    destruct r1 as [[] | e]; [ | left; exact Hrep].
    destruct (Country.national_resources_step (c1, env1))
      as [r2 [c2 env2]] eqn:E2.
    destruct (national_resources_step_cases _ _ _ _ _ E2)
      as (Y2 & V2 & _ & _ & _ & _ & R2).
    specialize (R2 Hrep).
    destruct r2 as [[] | e]; [ | left; exact R2].
    destruct (Country.random_event_step (c2, env2)) as [r3 [c3 env3]] eqn:E3.
    destruct (random_event_step_cases _ _ _ _ _ E3)
      as (Y3 & _ & _ & R3 & _ & _).
    destruct (Country.starvation_step (c3, env3)) as [r4 [c4 env4]] eqn:E4.
    destruct (starvation_step_cases _ _ _ _ _ E4)
      as (Y4 & _ & _ & R4 & _ & (evs & _ & V4) & _).
    destruct R3 as [R3 | (id & V3)].
    + left.
      assert (H3 : reputation_ok (Country.resources c3))
        by (unfold reputation_ok; rewrite R3; exact R2).
      assert (H4 : reputation_ok (Country.resources c4))
        by (unfold reputation_ok; rewrite R4; exact H3).
      destruct r3 as [[] | e]; [ | exact H3].
      destruct r4 as [[] | e]; exact H4.
    + right. exists id.
      destruct r3 as [[] | e].
      * exists evs.
        assert (Country.events c4 =
                Country.events c ++ good_event id (Country.year c) :: evs).
        { rewrite V4, V3, V2, V1, Y2, Y1, <- app_assoc. reflexivity. }
        destruct r4 as [[] | e]; simpl; assumption.
      * exists []. simpl. rewrite V3, V2, V1, Y2, Y1. reflexivity.
Qed.

End TickSteps.

(** ** Saving and loading *)

Section Persistence.

Lemma as_dict_of_dict (d : dict Z) : Json.as_dict (Json.of_dict d) = Ok d.
Proof.
  unfold Json.of_dict, Json.as_dict.
  induction d as [ | [k v] d IH]; simpl; [reflexivity | ].
  rewrite IH. reflexivity.
Qed.

Lemma as_strings_of_strings (l : list string) :
  Json.as_strings (Json.of_strings l) = Ok l.
Proof.
  unfold Json.of_strings, Json.as_strings. simpl.
  induction l as [ | x l IH]; simpl; [reflexivity | ].
  rewrite IH. reflexivity.
Qed.

Ltac read_fields :=
  cbv beta iota zeta delta
    [bind ret update draw lift_result and_then Country.field Json.item
     getitem lookup String.eqb Ascii.eqb Bool.eqb
     Json.as_str Json.as_int Json.as_list];
  cbn [fst snd].

Lemma new_city_features (features : list string) :
  match features with [] => [] | _ => features end = features.
Proof. destruct features; reflexivity. Qed.

Lemma load_city_save_city (c : City.t) (c0 : Country.t) (env : Env) :
  Country.load_city (Country.save_city c) (c0, env) =
  (Ok (City.mk (fst (uuid4 env)) (City.name c) (City.population c)
         (City.economy c) (City.crime c) (City.happiness c)
         (City.features c)),
   (c0, snd (uuid4 env))).
Proof.
  unfold Country.load_city, Country.save_city. read_fields.
  rewrite as_strings_of_strings. read_fields.
  unfold City.new. rewrite new_city_features. reflexivity.
Qed.

Lemma load_law_save_law (l : Law.t) (c0 : Country.t) (env : Env) :
  Country.load_law (Country.save_law l) (c0, env) =
  (Ok (Law.mk (fst (uuid4 env)) (Law.title l) (Law.description l)
         (Law.impact l)),
   (c0, snd (uuid4 env))).
Proof.
  unfold Country.load_law, Country.save_law. read_fields.
  rewrite as_dict_of_dict. read_fields. reflexivity.
Qed.

Lemma load_event_save_event (e : Event.t) (c0 : Country.t) (env : Env) :
  Country.load_event (Country.save_event e) (c0, env) =
  (Ok (Event.mk (fst (uuid4 env)) (Event.description e) (Event.effect e)
         (Event.year e)),
   (c0, snd (uuid4 env))).
Proof.
  unfold Country.load_event, Country.save_event. read_fields.
  rewrite as_dict_of_dict. read_fields. reflexivity.
Qed.



End Persistence.

(** ** Concrete runs *)

Ltac distinct_keys :=
  unfold Dict.wf; simpl;
  repeat (constructor; [simpl; intuition discriminate | ]); constructor.



Lemma avalon_valid : city_valid avalon.
Proof. unfold city_valid, in_percent; simpl; lia. Qed.

Lemma yearly_update_keeps_city_valid_witness :
  city_valid avalon
  /\ tick_effects [("crime", -2); ("happiness", 1)]
  /\ let '(r, (c', _)) :=
       City.yearly_update (interp := cpython)
         [("crime", -2); ("happiness", 1)] (avalon, sample_env) in
     city_valid c' /\ (City.population avalon < 2 ^ 1023 -> r = Ok tt).
Proof.
  assert (Hk : tick_effects [("crime", -2); ("happiness", 1)])
    by (repeat constructor; simpl; auto).
  exact (conj avalon_valid
           (conj Hk (yearly_update_keeps_city_valid (interp := cpython)
                       _ avalon sample_env avalon_valid Hk))).
Defined.

Lemma law_effects_order_independent_witness :
  Permutation [curfew; lottery] [lottery; curfew]
  /\ Country.cumulative_law_effects [curfew; lottery] =
     Country.cumulative_law_effects [lottery; curfew]
  /\ Country.cumulative_law_effects (map restrict_impact [curfew; lottery]) =
     Country.cumulative_law_effects [curfew; lottery].
Proof.
  assert (H : Permutation [curfew; lottery] [lottery; curfew])
    by apply perm_swap.
  exact (conj H (law_effects_order_independent _ _ H)).
Defined.



Lemma simulate_tick_population_nonneg_witness :
  0 <= Country.population civica
  /\ 0 <= Country.population
            (fst (snd (Country.simulate_tick (interp := cpython)
                         (civica, sample_env))))
  /\ (forall r c1 env1,
        Country.update_cities_step (interp := cpython) (civica, sample_env)
          = (r, (c1, env1)) ->
        r = Ok tt -> Country.cities c1 <> [] ->
        Country.population c1 =
        fold_right Z.add 0 (map City.population (Country.cities c1))
        /\ Forall (fun city => 0 <= City.population city) (Country.cities c1))
  /\ (forall p, 0 <= p -> 0 <= Z.min (p / 10) p <= p).
Proof.
  assert (H : 0 <= Country.population civica) by (simpl; lia).
  exact (conj H (simulate_tick_population_nonneg (interp := cpython)
                   civica sample_env H)).
Defined.

Lemma simulate_tick_without_cities_witness :
  Country.cities hamlet = []
  /\ Country.update_cities_step (interp := cpython) (hamlet, sample_env)
     = (Ok tt, (hamlet, sample_env))
  /\ Country.simulate_tick (interp := cpython) (hamlet, sample_env) =
     (Country.national_resources_step ;; Country.random_event_step ;;
      Country.starvation_step ;; Country.year_advance_step)
       (hamlet, sample_env)
  /\ (pool_ok (Country.resources hamlet) ->
      exists c' env',
        Country.simulate_tick (interp := cpython) (hamlet, sample_env)
          = (Ok tt, (c', env'))
        /\ Country.cities c' = []
        /\ Country.year c' = Country.year hamlet + 1).
Proof.
  exact (conj eq_refl
           (simulate_tick_without_cities (interp := cpython)
              hamlet sample_env eq_refl)).
Defined.

Lemma starvation_after_step_5_witness :
  let s5 := snd ((Country.update_cities_step (interp := cpython) ;;
                  Country.national_resources_step) (hamlet, sample_env)) in
  lookup "food" (Country.resources (fst s5)) = Some (-50)
  /\ Country.population (fst s5) = 200
  /\ exists c' env' id rolled,
       Country.simulate_tick (interp := cpython) (hamlet, sample_env)
         = (Ok tt, (c', env'))
       /\ lookup "food" (Country.resources c') = Some 0
       /\ Country.population c' = 180
       /\ Country.events c' =
          Country.events (fst s5) ++ rolled
            ++ [starvation_event id (Country.year hamlet)]
       /\ (List.length rolled <= 1)%nat
       /\ Country.year c' = Country.year hamlet + 1.
Proof.
  cbv zeta.
  assert (H5 : (Country.update_cities_step (interp := cpython) ;;
                Country.national_resources_step) (hamlet, sample_env)
               = (Ok tt,
                  (fst (snd ((Country.update_cities_step (interp := cpython) ;;
                              Country.national_resources_step)
                               (hamlet, sample_env))),
                   snd (snd ((Country.update_cities_step (interp := cpython) ;;
                              Country.national_resources_step)
                               (hamlet, sample_env))))))
    by (vm_compute; reflexivity).
  assert (Hf : lookup "food"
                 (Country.resources
                    (fst (snd ((Country.update_cities_step (interp := cpython) ;;
                                Country.national_resources_step)
                                 (hamlet, sample_env))))) = Some (-50))
    by (vm_compute; reflexivity).
  assert (Hp : Country.population
                 (fst (snd ((Country.update_cities_step (interp := cpython) ;;
                             Country.national_resources_step)
                              (hamlet, sample_env)))) = 200)
    by (vm_compute; reflexivity).
  exact (conj Hf
           (conj Hp (starvation_after_step_5 (interp := cpython)
                       hamlet _ sample_env _ H5 Hf Hp))).
Defined.

Lemma civica_reputation_ok : reputation_ok (Country.resources civica).
Proof. exists 50. split; [reflexivity | unfold in_percent; lia]. Qed.

Lemma reputation_after_mutations_witness :
  Dict.wf [("food", -100); ("reputation", 3)]
  /\ reputation_ok (Country.resources civica)
  /\ (exists c' env',
        Country.add_event "Bad harvest" [("food", -100); ("reputation", 3)]
          (civica, sample_env) = (Ok tt, (c', env'))
        /\ lookup "reputation" (Country.resources c')
           = applied (lookup "reputation" (Country.resources civica))
                     (lookup "reputation"
                        [("food", -100); ("reputation", 3)]))
  /\ (let c' := fst (snd (Country.simulate_tick (interp := cpython)
                            (civica, sample_env))) in
      reputation_ok (Country.resources c')
      \/ exists id rest,
           Country.events c' =
           Country.events civica
             ++ good_event id (Country.year civica) :: rest).
Proof.
  assert (Hwf : Dict.wf [("food", -100); ("reputation", 3)]) by distinct_keys.
  exact (conj Hwf
           (conj civica_reputation_ok
              (reputation_after_mutations (interp := cpython)
                 civica sample_env "Bad harvest" _ Hwf
                 civica_reputation_ok))).
Defined.

(** C1, counterexample.  On a fresh country, whose reputation is 50,
    [add_event] with the effect {"reputation": 100} leaves the
    reputation at 150. *)
Lemma add_event_reputation_unclamped :
  reputation_ok (Country.resources (Country.new "Civica"))
  /\ lookup "reputation"
       (Country.resources
          (fst (snd (Country.add_event "Festival" [("reputation", 100)]
                       (Country.new "Civica", sample_env)))))
     = Some 150
  /\ ~ reputation_ok
         (Country.resources
            (fst (snd (Country.add_event "Festival" [("reputation", 100)]
                         (Country.new "Civica", sample_env))))).
Proof.
  split; [exists 50; split; [reflexivity | unfold in_percent; lia] | ].
  split; [vm_compute; reflexivity | ].
  intros (v & Hv & Hrange). vm_compute in Hv. injection Hv as <-.
  unfold in_percent in Hrange. lia.
Qed.

(** The good event of the tick adds 5 to a reputation the resource step
    has just clamped: from 98, with a draw of +3 and the good event
    rolled, the tick ends with a reputation of 105 (and, the food of
    [hamlet] running out, with a starvation event after the good one). *)
Example good_event_reputation_unclamped :
  let c' := fst (snd (Country.simulate_tick (interp := cpython)
                        (hamlet, lucky_env))) in
  lookup "reputation" (Country.resources c') = Some 105
  /\ Country.events c' = [good_event "uuid-0" 1; starvation_event "uuid-1" 1].
Proof. vm_compute. split; reflexivity. Qed.

(** [colossus] is what the three calls named in its definition build. *)
Example colossus_reachable :
  fst (snd ((Country.add_city "Colossus" (2 ^ 1024) None ;;
             Country.add_event "Famine" [("food", -6000)])
              (Country.new "Civica", sample_env)))
  = colossus.
Proof. vm_compute. reflexivity. Qed.




(** * Further properties of the code *)

(** ** The yearly update in full *)

Section CityUpdateExact.
Context {interp : Interpreter}.

(** The law-effect loop on a well-formed mapping of the tick's keys. *)
Lemma law_effect_loop_exact (law_effects : dict Z) :
  tick_effects law_effects -> Dict.wf law_effects ->
  forall (c : City.t) (env : Env),
  for_items law_effects City.apply_law_effect (c, env) =
  (Ok tt,
   (City.mk (City.id c) (City.name c) (City.population c) (City.economy c)
      (adjusted (City.crime c) (lookup "crime" law_effects))
      (adjusted (City.happiness c) (lookup "happiness" law_effects))
      (City.features c), env)).
Proof.
  unfold Dict.wf.
  induction law_effects as [ | [k v] le IH]; intros Hk Hwf c env.
  - destruct c; reflexivity.
  - inversion Hk as [ | ? ? Hk0 Hks]; subst.
    simpl in Hwf. inversion Hwf as [ | ? ? Hnotin Hwf']; subst.
    simpl for_items. unfold bind.
    destruct Hk0 as [-> | ->]; cbn -[lookup adjusted Z.max Z.min Z.add].
    + rewrite (IH Hks Hwf'). cbn -[adjusted Z.max Z.min Z.add].
      rewrite (lookup_absent _ _ Hnotin). reflexivity.
    + rewrite (IH Hks Hwf'). cbn -[adjusted Z.max Z.min Z.add].
      rewrite (lookup_absent _ _ Hnotin). reflexivity.
Qed.

(** One yearly update on the tick's law effects, value by value: the
    three draws, the clamps, and the growth formula on the updated
    economy and crime. *)
Lemma yearly_update_exact (law_effects : dict Z) (c : City.t) (env : Env) :
  tick_effects law_effects -> Dict.wf law_effects ->
  let env1 := snd (randint 0 2 env) in
  let env2 := snd (randint (-1) 2 env1) in
  let env3 := snd (randint (-1) 1 env2) in
  let e' := Z.min 100 (City.economy c + fst (randint 0 2 env)) in
  let h' := clamp (adjusted (City.happiness c) (lookup "happiness" law_effects)
                   + fst (randint (-1) 2 env1)) in
  let c' := clamp (adjusted (City.crime c) (lookup "crime" law_effects)
                   + fst (randint (-1) 1 env2)) in
  City.yearly_update law_effects (c, env) =
  match City.growth (City.population c) e' c' with
  | Ok g =>
      (Ok tt,
       (City.mk (City.id c) (City.name c)
          (Z.max 0 (City.population c + g)) e' c' h' (City.features c), env3))
  | Raise e =>
      (Raise e,
       (City.mk (City.id c) (City.name c) (City.population c) e' c' h'
          (City.features c), env3))
  end.
Proof.
  intros Hk Hwf. cbv zeta.
  unfold City.yearly_update. unfold bind at 1.
  rewrite (law_effect_loop_exact law_effects Hk Hwf).
  cbv beta iota zeta delta [bind draw update self lift_result].
  cbn [fst snd City.id City.name City.population City.economy City.crime
       City.happiness City.features City.with_population City.with_economy
       City.with_crime City.with_happiness].
  fold (clamp (adjusted (City.happiness c) (lookup "happiness" law_effects)
               + fst (randint (-1) 2 (snd (randint 0 2 env))))).
  fold (clamp (adjusted (City.crime c) (lookup "crime" law_effects)
               + fst (randint (-1) 1
                        (snd (randint (-1) 2 (snd (randint 0 2 env))))))).
  destruct (City.growth _ _ _); reflexivity.
Qed.

Lemma clamp_range (v : Z) : 0 <= clamp v <= 100.
Proof. unfold clamp. lia. Qed.

Lemma clamp_mono (v w : Z) : v <= w -> clamp v <= clamp w.
Proof. unfold clamp. lia. Qed.

(** X1. One yearly update never changes a city's id, name or
    features; the economy never falls and gains at most 2, capped at
    100; crime ends within 1, and happiness between 1 below and 2
    above, of its value after the law effects, clamped to [0,100].
    This holds however the call ends. *)
Theorem yearly_update_drift (law_effects : dict Z) (c : City.t) (env : Env) :
  tick_effects law_effects -> Dict.wf law_effects ->
  let c' := fst (snd (City.yearly_update law_effects (c, env))) in
  let crime0 := adjusted (City.crime c) (lookup "crime" law_effects) in
  let happiness0 :=
    adjusted (City.happiness c) (lookup "happiness" law_effects) in
  City.id c' = City.id c /\ City.name c' = City.name c
  /\ City.features c' = City.features c
  /\ Z.min 100 (City.economy c) <= City.economy c'
     <= Z.min 100 (City.economy c + 2)
  /\ clamp (crime0 - 1) <= City.crime c' <= clamp (crime0 + 1)
  /\ clamp (happiness0 - 1) <= City.happiness c' <= clamp (happiness0 + 2).
Proof.
  intros Hk Hwf. cbv zeta.
  rewrite (yearly_update_exact law_effects c env Hk Hwf). cbv zeta.
  pose proof (randint_range 0 2 env ltac:(lia)) as R1.
  pose proof (randint_range (-1) 2 (snd (randint 0 2 env)) ltac:(lia)) as R2.
  pose proof (randint_range (-1) 1
                (snd (randint (-1) 2 (snd (randint 0 2 env)))) ltac:(lia))
    as R3.
  destruct (City.growth _ _ _); cbn [fst snd City.id City.name City.features
    City.economy City.crime City.happiness];
    (repeat split; try reflexivity; try lia; apply clamp_mono; lia).
Qed.

(** *** The direction of the population growth *)

Lemma binary_round_aux_sign (s : bool) (m e : Z) (l : location) :
  float_sign (binary_round_aux 53 1024 s m e l) = 0
  \/ float_sign (binary_round_aux 53 1024 s m e l) = (if s then -1 else 1).
Proof.
  unfold binary_round_aux.
  destruct (shr_fexp 53 1024 m e l) as [mrs' e'].
  destruct (shr_fexp 53 1024 _ e' loc_Exact) as [mrs'' e''].
  destruct (shr_m mrs'') as [ | p | p ]; [left; reflexivity | | left; reflexivity].
  destruct (Z.leb e'' (Z.sub 1024 53)); [right | left]; reflexivity.
Qed.

Lemma of_int_sign (z : Z) (f : spec_float) :
  0 <= z -> Float.of_int z = Ok f -> 0 <= float_sign f.
Proof.
  intros Hz. unfold Float.of_int.
  destruct z as [ | p | p ]; [ | | lia]; cbn [binary_normalize].
  - intros H; injection H as <-. simpl. lia.
  - unfold binary_round.
    destruct (shl_align p 0 _) as [mz ez].
    destruct (binary_round_aux_sign false (Zpos mz) ez loc_Exact) as [H | H];
      unfold Float.prec, Float.emax;
      destruct (binary_round_aux 53 1024 false (Zpos mz) ez loc_Exact);
      simpl; intros E; try discriminate; injection E as <-; simpl in *; lia.
Qed.

Lemma mul_sign (x y : spec_float) :
  0 <= float_sign x ->
  float_sign (Float.mul x y) = 0 \/ float_sign (Float.mul x y) = float_sign y.
Proof.
  unfold Float.mul, Float.prec, Float.emax.
  destruct x as [sx | sx | | [ | ] mx ex]; destruct y as [sy | sy | | sy my ey];
    simpl; intros H; auto; try lia.
  destruct (binary_round_aux_sign sy (Zpos (mx * my)) (ex + ey) loc_Exact)
    as [E | E]; [left; exact E | right].
  rewrite E. destruct sy; reflexivity.
Qed.

Lemma to_int_sign (f : spec_float) (z : Z) :
  Float.to_int f = Ok z ->
  (0 <= float_sign f -> 0 <= z) /\ (float_sign f <= 0 -> z <= 0).
Proof.
  destruct f as [s | s | | s m e]; simpl; intros H; try discriminate;
    injection H as <-; [lia | ].
  assert (Ha : 0 <= (if 0 <=? e then Z.shiftl (Zpos m) e
                     else Z.shiftr (Zpos m) (- e))).
  { destruct (0 <=? e).
    - apply Z.shiftl_nonneg. lia.
    - apply Z.shiftr_nonneg. lia. }
  destruct s; lia.
Qed.

Lemma rate_sign_table :
  forallb (fun e => forallb (rate_sign_agrees e) (upto 100)) (upto 100) = true.
Proof. vm_compute. reflexivity. Qed.

(** The growth of a non-negative population has the sign of
    [20 + 2 * economy - crime]. *)
Lemma growth_direction (population economy crime : Z) :
  0 <= population < 2 ^ 1023 ->
  0 <= economy <= 100 -> 0 <= crime <= 100 ->
  exists g,
    City.growth population economy crime = Ok g
    /\ (crime < 20 + 2 * economy -> 0 <= g)
    /\ (20 + 2 * economy < crime -> g <= 0).
Proof.
  intros Hp He Hc.
  destruct (growth_total population economy crime) as [g Hg];
    try assumption; try lia.
  exists g. split; [exact Hg | ].
  pose proof rate_sign_table as T.
  rewrite forallb_forall in T. specialize (T economy (in_upto 100 _ He)).
  rewrite forallb_forall in T. specialize (T crime (in_upto 100 _ Hc)).
  unfold rate_sign_agrees in T. unfold City.growth in Hg.
  destruct (City.growth_rate economy crime) as [rate | ]; [ | discriminate].
  cbn [and_then] in Hg.
  destruct (Float.of_int population) as [p | ] eqn:Ep; [ | discriminate].
  cbn [and_then] in Hg.
  pose proof (of_int_sign population p ltac:(lia) Ep) as Sp.
  destruct (to_int_sign _ _ Hg) as [Hpos Hneg].
  apply orb_prop in T.
  destruct (mul_sign p rate Sp) as [M | M]; rewrite M in *.
  - split; intros _; [apply Hpos | apply Hneg]; lia.
  - destruct T as [T | T]; apply Z.eqb_eq in T.
    + split; intros; lia.
    + rewrite T in *. split; intros H; [apply Hpos | apply Hneg]; lia.
Qed.

(** X2. A city with a non-negative economy and a population in
    [0, 2^1023) is updated without raising; its population does not
    fall when the updated crime is below 20 + 2 * economy, and does not
    rise when the updated crime is above it. *)
Theorem yearly_update_growth_direction
    (law_effects : dict Z) (c : City.t) (env : Env) :
  tick_effects law_effects -> Dict.wf law_effects ->
  0 <= City.economy c -> 0 <= City.population c < 2 ^ 1023 ->
  exists c' env',
    City.yearly_update law_effects (c, env) = (Ok tt, (c', env'))
    /\ (City.crime c' < 20 + 2 * City.economy c' ->
        City.population c <= City.population c')
    /\ (20 + 2 * City.economy c' < City.crime c' ->
        City.population c' <= City.population c).
Proof.
  intros Hk Hwf He Hp.
  rewrite (yearly_update_exact law_effects c env Hk Hwf). cbv zeta.
  pose proof (randint_range 0 2 env ltac:(lia)) as R1.
  match goal with
  | |- context [City.growth ?p ?e ?k] =>
      destruct (growth_direction p e k) as (g & -> & Hup & Hdown);
        [lia | lia | apply clamp_range | ]
  end.
  eexists _, _. split; [reflexivity | ].
  cbn [City.population City.economy City.crime]. split; intros H.
  - specialize (Hup H). lia.
  - specialize (Hdown H). lia.
Qed.

End CityUpdateExact.

(** ** What a tick touches and what it leaves alone *)

Lemma keys_set_present {V} (k : string) (v x : V) (d : dict V) :
  lookup k d = Some x -> keys (Dict.set k v d) = keys d.
Proof.
  induction d as [ | [k' v'] d IH]; simpl; [discriminate | ].
  destruct (String.eqb k k') eqn:E; simpl.
  - reflexivity.
  - intros H. now rewrite IH.
Qed.

Ltac keys_simpl :=
  repeat (erewrite keys_set_present
            by (rewrite ?lookup_set_neq by discriminate; eassumption)).

Ltac finish_frame :=
  let H := fresh in
  intros H; injection H as <- <- <-;
  cbn [Country.name Country.description Country.population
       Country.cities Country.laws Country.events Country.year
       Country.resources Country.with_name Country.with_description
       Country.with_population Country.with_cities Country.with_laws
       Country.with_events Country.with_year Country.with_resources];
  keys_simpl.

Section TickFrame.
Context {interp : Interpreter}.

(** Steps 4 to 7 leave the name, the description, the laws and the
    cities alone and keep the resource names, however they end. *)
Lemma late_steps_frame (c c' : Country.t) (env env' : Env) (r : result unit) :
  Country.national_resources_step (c, env) = (r, (c', env'))
  \/ Country.random_event_step (c, env) = (r, (c', env'))
  \/ Country.starvation_step (c, env) = (r, (c', env')) ->
  Country.name c' = Country.name c
  /\ Country.description c' = Country.description c
  /\ Country.laws c' = Country.laws c
  /\ Country.cities c' = Country.cities c
  /\ keys (Country.resources c') = keys (Country.resources c).
Proof.
  unfold Country.national_resources_step, Country.random_event_step,
    Country.starvation_step.
  intros [H | [H | H]]; revert H; run_steps; finish_frame;
    repeat split; reflexivity.
Qed.

(** The events steps 6 and 7 append. *)
Lemma random_event_step_log (c c' : Country.t) (env env' : Env)
    (r : result unit) :
  Country.random_event_step (c, env) = (r, (c', env')) ->
  exists rolled,
    Country.events c' = Country.events c ++ rolled
    /\ (rolled = []
        \/ exists id, rolled = [good_event id (Country.year c)]
                      \/ rolled = [bad_event id (Country.year c)]).
Proof.
  unfold Country.random_event_step.
  run_steps; finish_frame;
    first [ exists []; split; [now rewrite app_nil_r | left; reflexivity]
          | eexists; split; [reflexivity | right; eexists; left; reflexivity]
          | eexists; split; [reflexivity | right; eexists; right; reflexivity] ].
Qed.

Lemma starvation_step_log (c c' : Country.t) (env env' : Env)
    (r : result unit) :
  Country.starvation_step (c, env) = (r, (c', env')) ->
  exists starved,
    Country.events c' = Country.events c ++ starved
    /\ (starved = []
        \/ exists id, starved = [starvation_event id (Country.year c)])
    /\ (Country.population c' = Country.population c
        \/ starved <> []
           /\ Country.population c' =
              Country.population c
              - Z.min (Country.population c / 10) (Country.population c)).
Proof.
  unfold Country.starvation_step.
  run_steps; finish_frame;
    first [ exists []; split; [now rewrite app_nil_r | ];
            split; left; reflexivity
          | eexists; split; [reflexivity | ];
            split; [right; eexists; reflexivity | ];
            right; split; [discriminate | reflexivity] ].
Qed.

Lemma cumulative_law_effects_wf (laws : list Law.t) :
  Dict.wf (Country.cumulative_law_effects laws).
Proof.
  rewrite cumulative_law_effects_totals. unfold Dict.wf. simpl.
  repeat (constructor; [simpl; intuition discriminate | ]). constructor.
Qed.

(** One yearly update keeps the city's identity, and leaves the three
    percentages in range when the economy was, however it ends. *)
Lemma yearly_update_identity (law_effects : dict Z) (c : City.t) (env : Env) :
  tick_effects law_effects -> Dict.wf law_effects ->
  let c' := fst (snd (City.yearly_update law_effects (c, env))) in
  City.id c' = City.id c /\ City.name c' = City.name c
  /\ City.features c' = City.features c
  /\ (in_percent (City.economy c) -> percentages_ok c').
Proof.
  intros Hk Hwf. cbv zeta.
  rewrite (yearly_update_exact law_effects c env Hk Hwf). cbv zeta.
  pose proof (randint_range 0 2 env ltac:(lia)) as R1.
  destruct (City.growth _ _ _); cbn [fst snd City.id City.name City.features];
    (split; [reflexivity | split; [reflexivity | split; [reflexivity | ]]]);
    intros He; unfold percentages_ok, in_percent, clamp in *;
    cbn [City.economy City.crime City.happiness]; lia.
Qed.

(** The city loop keeps every city's identity and the percentages in
    range, however it ends. *)
Lemma update_cities_frame (law_effects : dict Z) :
  tick_effects law_effects -> Dict.wf law_effects ->
  forall (cities cities' : list City.t) (total : Z) (env env' : Env)
         (r : result Z),
  Country.update_cities law_effects cities total env = (r, (cities', env')) ->
  map City.id cities' = map City.id cities
  /\ map City.name cities' = map City.name cities
  /\ map City.features cities' = map City.features cities
  /\ (Forall percentages_ok cities -> Forall percentages_ok cities').
Proof.
  intros Hk Hwf. induction cities as [ | city rest IH];
    intros cities' total env env' r; simpl.
  - intros H; injection H as <- <- <-. repeat split; auto.
  - pose proof (yearly_update_identity law_effects city env Hk Hwf) as D.
    cbv zeta in D.
    destruct (City.yearly_update law_effects (city, env))
      as [[[] | e] [city' env1]]; cbn [fst snd] in D;
      destruct D as (Did & Dname & Dfeat & Dpct).
    + destruct (Country.update_cities law_effects rest _ env1)
        as [r' [rest' env'']] eqn:Er.
      destruct (IH _ _ _ _ _ Er) as (Iid & Iname & Ifeat & Ipct).
      intros H; injection H as <- <- <-. simpl.
      rewrite Did, Dname, Dfeat, Iid, Iname, Ifeat.
      repeat split; try reflexivity.
      intros Hp. inversion Hp as [ | ? ? (He & _) Hrest]; subst.
      constructor; auto.
    + intros H; injection H as <- <- <-. simpl.
      rewrite Did, Dname, Dfeat.
      repeat split; try reflexivity.
      intros Hp. inversion Hp as [ | ? ? (He & _) Hrest]; subst.
      constructor; auto.
Qed.

Lemma update_cities_step_frame (c c' : Country.t) (env env' : Env)
    (r : result unit) :
  Country.update_cities_step (c, env) = (r, (c', env')) ->
  Country.name c' = Country.name c
  /\ Country.description c' = Country.description c
  /\ Country.laws c' = Country.laws c
  /\ map City.id (Country.cities c') = map City.id (Country.cities c)
  /\ map City.name (Country.cities c') = map City.name (Country.cities c)
  /\ map City.features (Country.cities c')
     = map City.features (Country.cities c)
  /\ (Forall percentages_ok (Country.cities c) ->
      Forall percentages_ok (Country.cities c')).
Proof.
  unfold Country.update_cities_step.
  destruct (Country.update_cities _ (Country.cities c) 0 env)
    as [r0 [cities' env0]] eqn:Eu.
  destruct (update_cities_frame _ (cumulative_law_effects_keys _)
              (cumulative_law_effects_wf _) _ _ _ _ _ _ Eu)
    as (Hid & Hname & Hfeat & Hpct).
  destruct r0 as [t | e]; intros H; injection H as <- <- <-; simpl;
    repeat split; assumption.
Qed.

(** A relation between states that every step of the tick respects,
    however the step ends, holds between the state before the tick and
    the state the tick ends in. *)
Lemma simulate_tick_respects (R : Country.t -> Country.t -> Prop) :
  (forall a b c, R a b -> R b c -> R a c) ->
  (forall c env r c' env',
     Country.update_cities_step (c, env) = (r, (c', env')) -> R c c') ->
  (forall c env r c' env',
     Country.national_resources_step (c, env) = (r, (c', env'))
     \/ Country.random_event_step (c, env) = (r, (c', env'))
     \/ Country.starvation_step (c, env) = (r, (c', env')) -> R c c') ->
  (forall c, R c (Country.with_year (Country.year c + 1) c)) ->
  forall c env, R c (fst (snd (Country.simulate_tick (c, env)))).
Proof.
  intros Htrans Hcities Hlate Hyear c env.
  rewrite simulate_tick_steps.
  destruct (Country.update_cities_step (c, env)) as [r1 [c1 env1]] eqn:E1.
  pose proof (Hcities _ _ _ _ _ E1) as R1.
  destruct r1 as [[] | e]; [ | exact R1].
  destruct (Country.national_resources_step (c1, env1))
    as [r2 [c2 env2]] eqn:E2.
  pose proof (Htrans _ _ _ R1 (Hlate _ _ _ _ _ (or_introl E2))) as R2.
  destruct r2 as [[] | e]; [ | exact R2].
  destruct (Country.random_event_step (c2, env2)) as [r3 [c3 env3]] eqn:E3.
  pose proof (Htrans _ _ _ R2 (Hlate _ _ _ _ _ (or_intror (or_introl E3))))
    as R3.
  destruct r3 as [[] | e]; [ | exact R3].
  destruct (Country.starvation_step (c3, env3)) as [r4 [c4 env4]] eqn:E4.
  pose proof (Htrans _ _ _ R3 (Hlate _ _ _ _ _ (or_intror (or_intror E4))))
    as R4.
  destruct r4 as [[] | e]; [ | exact R4].
  rewrite year_advance_step_run. exact (Htrans _ _ _ R4 (Hyear c4)).
Qed.

(** A tick never adds, removes or reorders a resource name. *)
Lemma simulate_tick_keys (c : Country.t) (env : Env) :
  keys (Country.resources (fst (snd (Country.simulate_tick (c, env)))))
  = keys (Country.resources c).
Proof.
  apply (simulate_tick_respects
           (fun a b => keys (Country.resources b) = keys (Country.resources a))).
  - intros a b d H G. congruence.
  - intros a e r b e' E.
    destruct (update_cities_step_cases _ _ _ _ _ E) as (_ & Hres & _).
    congruence.
  - intros a e r b e' E.
    destruct (late_steps_frame _ _ _ _ _ E) as (_ & _ & _ & _ & H5).
    exact H5.
  - intros a. reflexivity.
Qed.

(** X3. A tick, however it ends, never changes the country's name,
    description or laws, never adds, removes or reorders cities, never
    changes a city's id, name or features, and never adds, removes or
    reorders a resource name. *)
Theorem simulate_tick_frame (c : Country.t) (env : Env) :
  let c' := fst (snd (Country.simulate_tick (c, env))) in
  Country.name c' = Country.name c
  /\ Country.description c' = Country.description c
  /\ Country.laws c' = Country.laws c
  /\ map City.id (Country.cities c') = map City.id (Country.cities c)
  /\ map City.name (Country.cities c') = map City.name (Country.cities c)
  /\ map City.features (Country.cities c')
     = map City.features (Country.cities c)
  /\ keys (Country.resources c') = keys (Country.resources c).
Proof.
  cbv zeta.
  apply (simulate_tick_respects
           (fun a b =>
              Country.name b = Country.name a
              /\ Country.description b = Country.description a
              /\ Country.laws b = Country.laws a
              /\ map City.id (Country.cities b) = map City.id (Country.cities a)
              /\ map City.name (Country.cities b)
                 = map City.name (Country.cities a)
              /\ map City.features (Country.cities b)
                 = map City.features (Country.cities a)
              /\ keys (Country.resources b) = keys (Country.resources a))).
  - intros a b d (H1 & H2 & H3 & H4 & H5 & H6 & H7)
      (G1 & G2 & G3 & G4 & G5 & G6 & G7).
    repeat split; congruence.
  - intros a e r b e' E.
    destruct (update_cities_step_frame _ _ _ _ _ E)
      as (H1 & H2 & H3 & H4 & H5 & H6 & _).
    destruct (update_cities_step_cases _ _ _ _ _ E) as (_ & Hres & _).
    repeat split; congruence.
  - intros a e r b e' E.
    destruct (late_steps_frame _ _ _ _ _ E) as (H1 & H2 & H3 & H4 & H5).
    repeat split; congruence.
  - intros a. repeat split; reflexivity.
Qed.

(** The events a tick appends, in the order it appends them. *)
Lemma simulate_tick_appends (c c' : Country.t) (env env' : Env)
    (r : result unit) :
  Country.simulate_tick (c, env) = (r, (c', env')) ->
  exists rolled starved,
    Country.events c' = Country.events c ++ rolled ++ starved
    /\ (rolled = []
        \/ exists id, rolled = [good_event id (Country.year c)]
                      \/ rolled = [bad_event id (Country.year c)])
    /\ (starved = []
        \/ exists id, starved = [starvation_event id (Country.year c)]).
Proof.
  intros E.
  replace c' with (fst (snd (Country.simulate_tick (c, env))))
    by now rewrite E.
  clear E r c' env'.
  assert (Hnone : forall c', Country.events c' = Country.events c ->
            exists rolled starved,
              Country.events c' = Country.events c ++ rolled ++ starved
              /\ (rolled = []
                  \/ exists id, rolled = [good_event id (Country.year c)]
                                \/ rolled = [bad_event id (Country.year c)])
              /\ (starved = []
                  \/ exists id,
                       starved = [starvation_event id (Country.year c)])).
  { intros c' E. exists [], []. rewrite E, app_nil_r.
    repeat split; auto. }
  rewrite simulate_tick_steps.
  destruct (Country.update_cities_step (c, env)) as [r1 [c1 env1]] eqn:E1.
  destruct (update_cities_step_cases _ _ _ _ _ E1) as (Y1 & _ & V1 & _).
  destruct r1 as [[] | e]; [ | apply Hnone; exact V1].
  destruct (Country.national_resources_step (c1, env1))
    as [r2 [c2 env2]] eqn:E2.
  destruct (national_resources_step_cases _ _ _ _ _ E2) as (Y2 & V2 & _).
  destruct r2 as [[] | e]; [ | apply Hnone; simpl; congruence].
  destruct (Country.random_event_step (c2, env2)) as [r3 [c3 env3]] eqn:E3.
  destruct (random_event_step_cases _ _ _ _ _ E3) as (Y3 & _).
  destruct (random_event_step_log _ _ _ _ _ E3) as (rolled & V3 & Hrolled).
  rewrite Y2, Y1 in Hrolled. rewrite V2, V1 in V3.
  destruct r3 as [[] | e].
  2:{ exists rolled, []. rewrite app_nil_r. repeat split; auto. }
  destruct (Country.starvation_step (c3, env3)) as [r4 [c4 env4]] eqn:E4.
  destruct (starvation_step_log _ _ _ _ _ E4) as (starved & V4 & Hstarved & _).
  rewrite Y3, Y2, Y1 in Hstarved. rewrite V3, <- app_assoc in V4.
  exists rolled, starved.
  destruct r4 as [[] | e]; simpl; repeat split; auto.
Qed.

(** X4. A tick, however it ends, only appends to the event log: at
    most one rolled event (good or bad) followed by at most one
    starvation event, each tagged with the year before the increment. *)
Theorem simulate_tick_log (c : Country.t) (env : Env) :
  exists rolled starved,
    Country.events (fst (snd (Country.simulate_tick (c, env))))
    = Country.events c ++ rolled ++ starved
    /\ (rolled = []
        \/ exists id, rolled = [good_event id (Country.year c)]
                      \/ rolled = [bad_event id (Country.year c)])
    /\ (starved = []
        \/ exists id, starved = [starvation_event id (Country.year c)]).
Proof.
  destruct (Country.simulate_tick (c, env)) as [r [c' env']] eqn:E.
  exact (simulate_tick_appends _ _ _ _ _ E).
Qed.


End TickFrame.

(** ** The entry points that add *)

Section Additions.
Context {interp : Interpreter}.

Lemma effect_loop_keys (effect : dict Z) : forall (c : Country.t) (env : Env),
  exists res,
    for_items effect Country.apply_effect (c, env)
    = (Ok tt, (Country.with_resources res c, env))
    /\ keys res = keys (Country.resources c).
Proof.
  induction effect as [ | [k v] effect IH]; intros c env.
  - exists (Country.resources c). split; [destruct c | ]; reflexivity.
  - simpl for_items. unfold bind. rewrite apply_effect_run.
    destruct (lookup k (Country.resources c)) as [x | ] eqn:Ex.
    + destruct (IH (Country.with_resources
                      (Dict.set k (x + v) (Country.resources c)) c) env)
        as (res & -> & Hres).
      exists res. split; [reflexivity | ].
      rewrite Hres. simpl. apply (keys_set_present _ _ _ _ Ex).
    + destruct (IH c env) as (res & -> & Hres).
      exists res. split; [reflexivity | exact Hres].
Qed.

Lemma add_event_run (description : string) (effect : dict Z)
    (c : Country.t) (env : Env) :
  exists res,
    Country.add_event description effect (c, env) =
    (Ok tt,
     (Country.with_resources res
        (Country.with_events
           (Country.events c
              ++ [Event.mk (fst (uuid4 env)) description effect
                    (Country.year c)]) c),
      snd (uuid4 env)))
    /\ keys res = keys (Country.resources c)
    /\ (Dict.wf effect ->
        forall k, lookup k res
                  = applied (lookup k (Country.resources c)) (lookup k effect)).
Proof.
  unfold Country.add_event. run_method.
  match goal with
  | |- context [for_items effect Country.apply_effect (?c1, ?env1)] =>
      destruct (effect_loop_keys effect c1 env1) as (res & E & Hkeys);
      pose proof (effect_loop effect) as L; rewrite E
  end.
  exists res. split; [reflexivity | split; [exact Hkeys | ]].
  intros Hwf k.
  match type of E with
  | for_items _ _ (?c1, ?env1) = _ =>
      destruct (L Hwf c1 env1) as (res' & E' & Hres')
  end.
  rewrite E in E'. injection E' as E'. rewrite E'. apply Hres'.
Qed.

(** X6. [add_event] never raises.  It appends one event carrying the
    description, the effect and the current year, and changes no
    resource name: an effect key the pool does not hold is ignored.
    For an effect without repeated keys every resource ends as its old
    value plus the delta the effect gives it, or unchanged when the
    effect does not name it; name, description, population, cities,
    laws and year are untouched. *)
Theorem add_event_effect (description : string) (effect : dict Z)
    (c : Country.t) (env : Env) :
  Dict.wf effect ->
  exists c' env',
    Country.add_event description effect (c, env) = (Ok tt, (c', env'))
    /\ Country.events c'
       = Country.events c
         ++ [Event.mk (fst (uuid4 env)) description effect (Country.year c)]
    /\ keys (Country.resources c') = keys (Country.resources c)
    /\ (forall k, lookup k (Country.resources c')
                  = applied (lookup k (Country.resources c)) (lookup k effect))
    /\ Country.name c' = Country.name c
    /\ Country.description c' = Country.description c
    /\ Country.population c' = Country.population c
    /\ Country.cities c' = Country.cities c
    /\ Country.laws c' = Country.laws c
    /\ Country.year c' = Country.year c.
Proof.
  intros Hwf.
  destruct (add_event_run description effect c env)
    as (res & -> & Hkeys & Hres).
  eexists _, _. split; [reflexivity | ]. simpl.
  repeat split; auto.
Qed.

Lemma laws_total_app (k : string) (laws : list Law.t) (law : Law.t) :
  laws_total k (laws ++ [law])
  = laws_total k laws + impact_total k (Law.impact law).
Proof.
  unfold laws_total. induction laws as [ | l laws IH]; simpl; [lia | ].
  rewrite IH. lia.
Qed.

(** X7. [add_law] never raises, appends the law and touches nothing
    else; from the next tick on, the aggregated law effects are the
    previous "crime" and "happiness" totals plus what the new law's
    impact gives those two keys. *)
Theorem add_law_effect (title description : string) (impact : dict Z)
    (c : Country.t) (env : Env) :
  exists c' env',
    Country.add_law title description impact (c, env) = (Ok tt, (c', env'))
    /\ Country.laws c'
       = Country.laws c ++ [Law.mk (fst (uuid4 env)) title description impact]
    /\ Country.cumulative_law_effects (Country.laws c')
       = [("crime",
           laws_total "crime" (Country.laws c) + impact_total "crime" impact);
          ("happiness",
           laws_total "happiness" (Country.laws c)
           + impact_total "happiness" impact)]
    /\ Country.cities c' = Country.cities c
    /\ Country.resources c' = Country.resources c
    /\ Country.events c' = Country.events c
    /\ Country.population c' = Country.population c
    /\ Country.year c' = Country.year c.
Proof.
  eexists _, _. split; [reflexivity | ]. simpl.
  rewrite cumulative_law_effects_totals, !laws_total_app. simpl.
  repeat split; reflexivity.
Qed.

Lemma city_total_app (cities : list City.t) (city : City.t) :
  city_total (cities ++ [city]) = city_total cities + City.population city.
Proof.
  unfold city_total. induction cities as [ | x cities IH]; simpl; [lia | ].
  rewrite IH. lia.
Qed.

(** [add_city] never raises.  It appends a city with economy 50,
    crime 10 and happiness 50 and adds the city's population to the
    national population, so the difference between the national
    population and the sum of the city populations is what it was
    before (10000 on a fresh country). *)
Lemma add_city_effect (name : string) (population : Z)
    (features : option (list string)) (c : Country.t) (env : Env) :
  exists c' env',
    Country.add_city name population features (c, env) = (Ok tt, (c', env'))
    /\ Country.cities c'
       = Country.cities c
         ++ [City.mk (fst (uuid4 env)) name population 50 10 50
               (match features with Some l => l | None => [] end)]
    /\ Country.population c' - city_total (Country.cities c')
       = Country.population c - city_total (Country.cities c)
    /\ Country.laws c' = Country.laws c
    /\ Country.events c' = Country.events c
    /\ Country.resources c' = Country.resources c
    /\ Country.year c' = Country.year c.
Proof.
  eexists _, _. split; [reflexivity | ]. simpl.
  rewrite new_city_features, city_total_app. simpl.
  destruct features; repeat split; try reflexivity; lia.
Qed.

End Additions.

(** ** What holds in every state a session reaches *)

Section Sessions.
Context {interp : Interpreter}.

Lemma simulate_tick_year (c : Country.t) (env : Env) :
  Country.year (fst (snd (Country.simulate_tick (c, env)))) = Country.year c
  \/ Country.year (fst (snd (Country.simulate_tick (c, env))))
     = Country.year c + 1.
Proof.
  destruct (Country.simulate_tick (c, env)) as [r [c' env']] eqn:E.
  pose proof (simulate_tick_cases _ _ _ _ _ E) as H.
  destruct r; simpl; [right | left]; tauto.
Qed.

(** X8. In every state reached from [Country(name)] through
    [add_city], [add_law], [add_event] and [simulate_tick], whatever
    their arguments, the random draws and the way the calls ended, the
    resource pool holds exactly "food", "money", "tech" and
    "reputation", in this order. *)
Theorem reachable_resource_names (c : Country.t) :
  reachable c ->
  keys (Country.resources c) = ["food"; "money"; "tech"; "reputation"].
Proof.
  induction 1 as [name | c c' Hc IH Hstep]; [reflexivity | ].
  destruct Hstep as [c env name population features
                    | c env title description impact
                    | c env description effect
                    | c env].
  - exact IH.
  - exact IH.
  - destruct (add_event_run description effect c env) as (res & -> & Hk & _).
    simpl. congruence.
  - rewrite simulate_tick_keys. exact IH.
Qed.

Lemma sorted_append (l l' : list Z) (y : Z) :
  StronglySorted Z.le l -> Forall (fun x => x <= y) l ->
  Forall (fun x => x = y) l' -> StronglySorted Z.le (l ++ l').
Proof.
  intros Hs Hle Hy. induction Hs as [ | x l Hs IH Hx]; simpl.
  - induction Hy as [ | x l' Hx Hy IH]; constructor; [exact IH | ].
    subst. clear IH. induction Hy; constructor; [lia | assumption].
  - inversion Hle; subst. constructor; [apply IH; assumption | ].
    apply Forall_app. split; [assumption | ].
    eapply Forall_impl; [ | exact Hy]. simpl. intros; lia.
Qed.

Lemma chronological_append (y : Z) (events new : list Event.t) :
  1 <= y -> chronological y events ->
  Forall (fun e => Event.year e = y) new ->
  chronological y (events ++ new).
Proof.
  intros Hy [Hrange Hsorted] Hnew. split.
  - apply Forall_app. split; [assumption | ].
    eapply Forall_impl; [ | exact Hnew]. simpl. intros; lia.
  - rewrite map_app. apply (sorted_append _ _ y).
    + assumption.
    + rewrite Forall_map. eapply Forall_impl; [ | exact Hrange].
      simpl. intros; lia.
    + rewrite Forall_map. exact Hnew.
Qed.

Lemma chronological_later (y y' : Z) (events : list Event.t) :
  y <= y' -> chronological y events -> chronological y' events.
Proof.
  intros Hy [Hrange Hsorted]. split; [ | assumption].
  eapply Forall_impl; [ | exact Hrange]. simpl. intros; lia.
Qed.

(** X9. In every reachable state the year is at least 1 and the
    event log is in chronological order, every event tagged with a
    year between 1 and the current year. *)
Theorem reachable_log_chronological (c : Country.t) :
  reachable c ->
  1 <= Country.year c /\ chronological (Country.year c) (Country.events c).
Proof.
  induction 1 as [name | c c' Hc [Hy Hlog] Hstep].
  - simpl. split; [lia | split; constructor].
  - destruct Hstep as [c env name population features
                      | c env title description impact
                      | c env description effect
                      | c env].
    + simpl. auto.
    + simpl. auto.
    + destruct (add_event_run description effect c env) as (res & -> & _).
      simpl. split; [exact Hy | ].
      apply chronological_append; auto.
    + pose proof (simulate_tick_year c env) as Hyear.
      destruct (Country.simulate_tick (c, env)) as [r [c' env']] eqn:E.
      destruct (simulate_tick_appends _ _ _ _ _ E)
        as (rolled & starved & Hev & Hrolled & Hstarved).
      cbn [fst snd] in *. rewrite Hev.
      assert (Hnew : Forall (fun e => Event.year e = Country.year c)
                       (rolled ++ starved)).
      { apply Forall_app. split.
        - destruct Hrolled as [-> | [id [-> | ->]]]; repeat constructor.
        - destruct Hstarved as [-> | [id ->]]; repeat constructor. }
      pose proof (chronological_append _ _ _ Hy Hlog Hnew) as Happ.
      destruct Hyear as [-> | ->].
      * auto.
      * split; [lia | ]. apply (chronological_later (Country.year c)); [lia | ].
        exact Happ.
Qed.

(** X10. In every reachable state the economy, crime and happiness of
    every city are in [0,100]. *)
Theorem reachable_city_percentages (c : Country.t) :
  reachable c -> Forall percentages_ok (Country.cities c).
Proof.
  induction 1 as [name | c c' Hc IH Hstep]; [constructor | ].
  destruct Hstep as [c env name population features
                    | c env title description impact
                    | c env description effect
                    | c env].
  - simpl. apply Forall_app. split; [exact IH | ].
    constructor; [ | constructor].
    unfold percentages_ok, in_percent. simpl. lia.
  - exact IH.
  - destruct (add_event_run description effect c env) as (res & -> & _).
    exact IH.
  - revert IH.
    apply (simulate_tick_respects
             (fun a b => Forall percentages_ok (Country.cities a) ->
                         Forall percentages_ok (Country.cities b))).
    + auto.
    + intros a e r b e' E.
      destruct (update_cities_step_frame _ _ _ _ _ E)
        as (_ & _ & _ & _ & _ & _ & H). exact H.
    + intros a e r b e' E.
      destruct (late_steps_frame _ _ _ _ _ E) as (_ & _ & _ & -> & _). auto.
    + auto.
Qed.

End Sessions.

(** ** Loading: identifiers and failures *)

Section Loading.

Lemma uuid4_value (env : Env) : fst (uuid4 env) = uuids env (issued env).
Proof. vm_compute. reflexivity. Qed.

Lemma uuid4_env (env : Env) : snd (uuid4 env) = issue 1 env.
Proof. vm_compute. reflexivity. Qed.

Lemma issue_issue (n m : nat) (env : Env) :
  issue n (issue m env) = issue (m + n) env.
Proof. unfold issue. simpl. f_equal. lia. Qed.

Lemma fresh_ids_issue (env : Env) (m n : nat) :
  fresh_ids (issue m env) n = map (uuids env) (seq (issued env + m) n).
Proof. unfold fresh_ids, issue. simpl. do 2 f_equal. lia. Qed.

(** A list of saved entities is loaded with the identifiers [uuid4]
    issues next, one for each, in order. *)
Lemma comprehension_fresh_ids {A : Type}
    (save : A -> json) (load : json -> Method Country.t A) (id : A -> string) :
  (forall a c0 env,
     exists a', load (save a) (c0, env) = (Ok a', (c0, snd (uuid4 env)))
                /\ id a' = fst (uuid4 env)) ->
  forall (l : list A) (c0 : Country.t) (env : Env),
  exists l',
    comprehension load (map save l) (c0, env)
    = (Ok l', (c0, issue (List.length l) env))
    /\ map id l' = fresh_ids env (List.length l).
Proof.
  intros Hone. induction l as [ | a l IH]; intros c0 env; simpl.
  - exists []. split; [destruct env | ]; reflexivity.
  - destruct (Hone a c0 env) as (a' & Ea & Ia).
    destruct (IH c0 (snd (uuid4 env))) as (l' & El & Il).
    exists (a' :: l'). unfold bind. rewrite Ea, El.
    rewrite uuid4_env, issue_issue. split; [reflexivity | ].
    simpl map. rewrite Ia, Il, uuid4_value, uuid4_env. reflexivity.
Qed.

(** X11. The identifiers a saved document holds are never used:
    [load] gives the cities, then the laws, then the events of the
    document the identifiers [uuid4] issues next, one each, and draws
    no random number. *)
Theorem load_issues_fresh_ids (c c0 : Country.t) (env : Env) :
  let nc := List.length (Country.cities c) in
  let nl := List.length (Country.laws c) in
  let ne := List.length (Country.events c) in
  exists c',
    Country.load (Country.save c) (c0, env)
    = (Ok tt, (c', issue (nc + nl + ne) env))
    /\ map City.id (Country.cities c')
       = map (uuids env) (seq (issued env) nc)
    /\ map Law.id (Country.laws c')
       = map (uuids env) (seq (issued env + nc) nl)
    /\ map Event.id (Country.events c')
       = map (uuids env) (seq (issued env + nc + nl) ne).
Proof.
  cbv zeta. unfold Country.load, Country.save.
  cbv beta iota zeta delta
    [bind ret update draw lift_result and_then Country.field Json.item
     getitem lookup String.eqb Ascii.eqb Bool.eqb
     Json.as_str Json.as_int Json.as_list];
  cbn [fst snd].
  rewrite as_dict_of_dict.
  cbv beta iota zeta delta
    [bind ret update draw lift_result and_then Country.field Json.item
     getitem lookup String.eqb Ascii.eqb Bool.eqb
     Json.as_str Json.as_int Json.as_list];
  cbn [fst snd].
  match goal with
  | |- context [comprehension Country.load_city _ (?s0, ?e0)] =>
      destruct (comprehension_fresh_ids Country.save_city Country.load_city
                  City.id
                  (fun a c0 env =>
                     ex_intro _ _ (conj (load_city_save_city a c0 env)
                                        eq_refl))
                  (Country.cities c) s0 e0) as (cs & -> & Ic)
  end.
  cbn [fst snd].
  match goal with
  | |- context [comprehension Country.load_law _ (?s0, ?e0)] =>
      destruct (comprehension_fresh_ids Country.save_law Country.load_law
                  Law.id
                  (fun a c0 env =>
                     ex_intro _ _ (conj (load_law_save_law a c0 env)
                                        eq_refl))
                  (Country.laws c) s0 e0) as (ls & -> & Il)
  end.
  cbn [fst snd].
  match goal with
  | |- context [comprehension Country.load_event _ (?s0, ?e0)] =>
      destruct (comprehension_fresh_ids Country.save_event Country.load_event
                  Event.id
                  (fun a c0 env =>
                     ex_intro _ _ (conj (load_event_save_event a c0 env)
                                        eq_refl))
                  (Country.events c) s0 e0) as (es & -> & Ie)
  end.
  cbn [fst snd].
  rewrite !issue_issue in *. rewrite !fresh_ids_issue in *.
  rewrite ?Nat.add_assoc in *.
  eexists. split; [reflexivity | ]. simpl.
  repeat split; assumption.
Qed.

(** X12. [load] is not all-or-nothing.  A document without "name"
    makes it raise [KeyError] with the country untouched; a document
    that holds the five scalar fields but no "cities" makes it raise
    [KeyError] after name, description, population, year and resources
    were replaced, with the cities, laws and events still the old
    ones. *)
Theorem load_stops_at_missing_key
    (o : list (string * json)) (c0 : Country.t) (env : Env) :
  (lookup "name" o = None ->
   Country.load (JObject o) (c0, env) = (Raise (KeyError "name"), (c0, env)))
  /\ (forall name description population year resources j,
        lookup "name" o = Some (JStr name) ->
        lookup "description" o = Some (JStr description) ->
        lookup "population" o = Some (JInt population) ->
        lookup "year" o = Some (JInt year) ->
        lookup "resources" o = Some j -> Json.as_dict j = Ok resources ->
        lookup "cities" o = None ->
        Country.load (JObject o) (c0, env)
        = (Raise (KeyError "cities"),
           (Country.mk name description population (Country.cities c0)
              (Country.laws c0) (Country.events c0) year resources, env))).
Proof.
  split.
  - intros H. unfold Country.load.
    cbv beta iota zeta delta
      [bind ret update draw lift_result and_then Country.field Json.item
       getitem].
    rewrite H. reflexivity.
  - intros name description population year resources j Hn Hd Hp Hy Hr Hj Hc.
    unfold Country.load.
    cbv beta iota zeta delta
      [bind ret update draw lift_result and_then Country.field Json.item
       getitem].
    rewrite Hn, Hd, Hp, Hy, Hr, Hc. cbn [Json.as_str Json.as_int].
    rewrite Hj. reflexivity.
Qed.

End Loading.

(** ** The shell *)

Section ShellFacts.
Context {builtins : Builtins}.

Lemma wf_set (k : string) (v : Z) (d : dict Z) :
  Dict.wf d -> Dict.wf (Dict.set k v d).
Proof.
  unfold Dict.wf. induction d as [ | [k' v'] d IH]; simpl; intros H.
  - constructor; [simpl; tauto | constructor].
  - inversion H as [ | ? ? Hnotin Hd]; subst.
    destruct (String.eqb k k') eqn:E; simpl.
    + constructor; assumption.
    + constructor; [ | apply IH; assumption].
      intros Hin. apply Hnotin. clear - Hin E.
      induction d as [ | [k0 v0] d IH]; simpl in *.
      * destruct Hin as [-> | []]. now rewrite String.eqb_refl in E.
      * destruct (String.eqb k k0) eqn:E0; simpl in Hin.
        -- exact Hin.
        -- destruct Hin as [-> | Hin]; [left; reflexivity | right; auto].
Qed.

Lemma parse_parts_wf (parts : list string) : forall impact d,
  Dict.wf impact -> Shell.parse_parts impact parts = Ok d -> Dict.wf d.
Proof.
  induction parts as [ | part parts IH]; simpl; intros impact d Hwf H.
  - injection H as <-. exact Hwf.
  - unfold Shell.parse_part in H.
    destruct (Shell.contains ":"%char part).
    + destruct (Shell.split ":"%char part) as [ | k [ | v [ | ? ?]]];
        try discriminate.
      destruct (int (strip v)) as [n | e]; [ | discriminate].
      cbn [and_then] in H. eapply IH; [ | exact H]. apply wf_set, Hwf.
    + cbn [and_then] in H. eapply IH; eassumption.
Qed.

(** Whatever line is typed, the mapping [main] builds from it has no
    key twice. *)
Lemma parse_mapping_wf (raw : string) (d : dict Z) :
  Shell.parse_mapping raw = Ok d -> Dict.wf d.
Proof.
  unfold Shell.parse_mapping. apply parse_parts_wf. constructor.
Qed.

(** X13. Choice 4 of the menu is all or nothing, whatever line is
    typed.  When the parsing of the effect line raises, the exception
    leaves [main] with the country and the id supply untouched: no
    event is recorded.  When it returns a mapping, exactly one event is
    appended, with that mapping and the current year, the resource
    names stay as they were and every resource ends as its old value
    plus the one delta the mapping gives it: a key typed twice counts
    once, with its last value. *)
Theorem record_event_outcome (description raw : string)
    (c : Country.t) (env : Env) :
  match Shell.parse_mapping raw with
  | Raise e =>
      Shell.record_event description raw (c, env) = (Raise e, (c, env))
  | Ok effect =>
      exists c' env',
        Shell.record_event description raw (c, env) = (Ok tt, (c', env'))
        /\ Country.events c'
           = Country.events c
             ++ [Event.mk (fst (uuid4 env)) description effect
                   (Country.year c)]
        /\ keys (Country.resources c') = keys (Country.resources c)
        /\ (forall k, lookup k (Country.resources c')
                      = applied (lookup k (Country.resources c))
                          (lookup k effect))
        /\ Country.cities c' = Country.cities c
        /\ Country.laws c' = Country.laws c
        /\ Country.population c' = Country.population c
        /\ Country.year c' = Country.year c
  end.
Proof.
  unfold Shell.record_event, bind, lift_result.
  destruct (Shell.parse_mapping raw) as [effect | e] eqn:E; [ | reflexivity].
  destruct (add_event_run description effect c env)
    as (res & -> & Hkeys & Hres).
  eexists _, _. split; [reflexivity | ]. simpl.
  repeat split; auto. intros k. apply Hres.
  exact (parse_mapping_wf raw effect E).
Qed.

Lemma contains_occurrences (ch : Ascii.ascii) (s : string) :
  Shell.contains ch s = negb (Nat.eqb (occurrences ch s) 0).
Proof.
  induction s as [ | ch' s IH]; simpl; [reflexivity | ].
  destruct (Ascii.eqb ch' ch); simpl; [reflexivity | exact IH].
Qed.

Lemma split_length (ch : Ascii.ascii) (s : string) :
  List.length (Shell.split ch s) = S (occurrences ch s).
Proof.
  induction s as [ | ch' s IH]; simpl; [reflexivity | ].
  destruct (Ascii.eqb ch' ch); simpl; [now rewrite IH | ].
  destruct (Shell.split ch s); simpl in *; [discriminate | exact IH].
Qed.

Lemma split_absent (ch : Ascii.ascii) (s : string) :
  occurrences ch s = 0%nat -> Shell.split ch s = [s].
Proof.
  induction s as [ | ch' s IH]; simpl; [reflexivity | ].
  destruct (Ascii.eqb ch' ch); simpl; [discriminate | ].
  intros H. now rewrite (IH H).
Qed.

Lemma split_parts_occurrences (sep ch : Ascii.ascii) (s : string) :
  occurrences ch s = 0%nat ->
  Forall (fun part => occurrences ch part = 0%nat) (Shell.split sep s).
Proof.
  induction s as [ | ch' s IH]; simpl.
  - intros _. repeat constructor.
  - destruct (Ascii.eqb ch' ch) eqn:E; simpl; [discriminate | ].
    intros H. specialize (IH H).
    destruct (Ascii.eqb ch' sep).
    + constructor; [reflexivity | exact IH].
    + destruct (Shell.split sep s) as [ | part parts].
      * constructor; [simpl; now rewrite E | constructor].
      * inversion IH; subst.
        constructor; [simpl; now rewrite E | assumption].
Qed.

Lemma parse_parts_no_colon (parts : list string) (impact : dict Z) :
  Forall (fun part => occurrences ":"%char part = 0%nat) parts ->
  Shell.parse_parts impact parts = Ok impact.
Proof.
  induction 1 as [ | part parts Hp _ IH]; simpl; [reflexivity | ].
  unfold Shell.parse_part. rewrite contains_occurrences, Hp. simpl.
  exact IH.
Qed.

(** X14. A line without any colon, the empty line included, gives the
    empty mapping, so that choice 3 enacts a law without effect; a line
    without comma that holds two or more colons makes the parsing raise
    [ValueError], and no law is added. *)
Theorem parse_mapping_edges
    (title description raw : string) (c : Country.t) (env : Env) :
  (occurrences ":"%char raw = 0%nat ->
   Shell.parse_mapping raw = Ok []
   /\ Shell.enact_law title description raw (c, env)
      = Country.add_law title description [] (c, env))
  /\ (occurrences ","%char raw = 0%nat -> (2 <= occurrences ":"%char raw)%nat ->
      Shell.parse_mapping raw = Raise ValueError
      /\ Shell.enact_law title description raw (c, env)
         = (Raise ValueError, (c, env))).
Proof.
  split.
  - intros H.
    assert (E : Shell.parse_mapping raw = Ok []).
    { unfold Shell.parse_mapping.
      apply parse_parts_no_colon, split_parts_occurrences, H. }
    split; [exact E | ].
    unfold Shell.enact_law, bind, lift_result. rewrite E. reflexivity.
  - intros Hcomma Hcolon.
    assert (E : Shell.parse_mapping raw = Raise ValueError).
    { unfold Shell.parse_mapping. rewrite (split_absent _ _ Hcomma).
      simpl. unfold Shell.parse_part.
      rewrite contains_occurrences.
      pose proof (split_length ":"%char raw) as L.
      destruct (occurrences ":"%char raw) as [ | [ | n]]; try lia. simpl.
      destruct (Shell.split ":"%char raw) as [ | k [ | v [ | ? ?]]];
        simpl in L; try lia; reflexivity. }
    split; [exact E | ].
    unfold Shell.enact_law, bind, lift_result. rewrite E. reflexivity.
Qed.

End ShellFacts.

(** ** The resource accounts of a tick *)

Section TickAccounts.
Context {interp : Interpreter}.





End TickAccounts.

(** ** Concrete runs of the further properties *)

Lemma sample_effects_ok :
  tick_effects [("crime", -2); ("happiness", 1)]
  /\ Dict.wf [("crime", -2); ("happiness", 1)].
Proof.
  split; [ | distinct_keys].
  constructor; [left; reflexivity | ].
  constructor; [right; reflexivity | constructor].
Qed.

Lemma yearly_update_drift_witness :
  tick_effects [("crime", -2); ("happiness", 1)]
  /\ Dict.wf [("crime", -2); ("happiness", 1)]
  /\ let c' := fst (snd (City.yearly_update (interp := cpython)
                           [("crime", -2); ("happiness", 1)]
                           (avalon, sample_env))) in
     let crime0 :=
       adjusted (City.crime avalon)
         (lookup "crime" [("crime", -2); ("happiness", 1)]) in
     let happiness0 :=
       adjusted (City.happiness avalon)
         (lookup "happiness" [("crime", -2); ("happiness", 1)]) in
     City.id c' = City.id avalon /\ City.name c' = City.name avalon
     /\ City.features c' = City.features avalon
     /\ Z.min 100 (City.economy avalon) <= City.economy c'
        <= Z.min 100 (City.economy avalon + 2)
     /\ clamp (crime0 - 1) <= City.crime c' <= clamp (crime0 + 1)
     /\ clamp (happiness0 - 1) <= City.happiness c' <= clamp (happiness0 + 2).
Proof.
  exact (conj (proj1 sample_effects_ok)
           (conj (proj2 sample_effects_ok)
              (yearly_update_drift (interp := cpython) _ avalon sample_env
                 (proj1 sample_effects_ok) (proj2 sample_effects_ok)))).
Defined.

Lemma avalon_population_small : 0 <= City.population avalon < 2 ^ 1023.
Proof. split; [simpl; lia | vm_compute; reflexivity]. Qed.

Lemma yearly_update_growth_direction_witness :
  tick_effects [("crime", -2); ("happiness", 1)]
  /\ Dict.wf [("crime", -2); ("happiness", 1)]
  /\ 0 <= City.economy avalon
  /\ 0 <= City.population avalon < 2 ^ 1023
  /\ exists c' env',
       City.yearly_update (interp := cpython)
         [("crime", -2); ("happiness", 1)] (avalon, sample_env)
       = (Ok tt, (c', env'))
       /\ (City.crime c' < 20 + 2 * City.economy c' ->
           City.population avalon <= City.population c')
       /\ (20 + 2 * City.economy c' < City.crime c' ->
           City.population c' <= City.population avalon).
Proof.
  assert (He : 0 <= City.economy avalon) by (simpl; lia).
  exact (conj (proj1 sample_effects_ok)
           (conj (proj2 sample_effects_ok)
              (conj He
                 (conj avalon_population_small
                    (yearly_update_growth_direction (interp := cpython)
                       _ avalon sample_env
                       (proj1 sample_effects_ok) (proj2 sample_effects_ok)
                       He avalon_population_small))))).
Defined.



Lemma famine_effect_wf : Dict.wf [("food", -6000); ("gold", 3)].
Proof. distinct_keys. Qed.

Lemma add_event_effect_witness :
  Dict.wf [("food", -6000); ("gold", 3)]
  /\ exists c' env',
       Country.add_event "Famine" [("food", -6000); ("gold", 3)]
         (civica, sample_env) = (Ok tt, (c', env'))
       /\ Country.events c'
          = Country.events civica
            ++ [Event.mk (fst (uuid4 sample_env)) "Famine"
                  [("food", -6000); ("gold", 3)] (Country.year civica)]
       /\ keys (Country.resources c') = keys (Country.resources civica)
       /\ (forall k, lookup k (Country.resources c')
                     = applied (lookup k (Country.resources civica))
                               (lookup k [("food", -6000); ("gold", 3)]))
       /\ Country.name c' = Country.name civica
       /\ Country.description c' = Country.description civica
       /\ Country.population c' = Country.population civica
       /\ Country.cities c' = Country.cities civica
       /\ Country.laws c' = Country.laws civica
       /\ Country.year c' = Country.year civica.
Proof.
  exact (conj famine_effect_wf
           (add_event_effect "Famine" _ civica sample_env
              famine_effect_wf)).
Defined.

Lemma session_4_reachable : reachable (interp := cpython) session_4.
Proof.
  apply (reachable_step session_3); [ | exact (step_tick session_3 sample_env)].
  apply (reachable_step session_2);
    [ | exact (step_add_event session_2 sample_env _ _)].
  apply (reachable_step session_1);
    [ | exact (step_add_law session_1 sample_env _ _ _)].
  apply (reachable_step (Country.new "Civica"));
    [ | exact (step_add_city _ sample_env _ _ _)].
  apply reachable_new.
Qed.

Lemma reachable_resource_names_witness :
  reachable (interp := cpython) session_4
  /\ keys (Country.resources session_4)
     = ["food"; "money"; "tech"; "reputation"].
Proof.
  exact (conj session_4_reachable
           (reachable_resource_names (interp := cpython) session_4
              session_4_reachable)).
Defined.

Lemma reachable_log_chronological_witness :
  reachable (interp := cpython) session_4
  /\ 1 <= Country.year session_4
  /\ chronological (Country.year session_4) (Country.events session_4).
Proof.
  exact (conj session_4_reachable
           (reachable_log_chronological (interp := cpython) session_4
              session_4_reachable)).
Defined.

Lemma reachable_city_percentages_witness :
  reachable (interp := cpython) session_4
  /\ Forall percentages_ok (Country.cities session_4).
Proof.
  exact (conj session_4_reachable
           (reachable_city_percentages (interp := cpython) session_4
              session_4_reachable)).
Defined.

(** The session of the witnesses above ends in year 2, after a blight
    and a starvation, with the city grown to 1056 inhabitants. *)
Example session_4_run :
  Country.year session_4 = 2
  /\ map Event.description (Country.events session_4)
     = ["Famine"; "A crop blight reduces food stores!";
        "Starvation strikes the nation!"]
  /\ map City.population (Country.cities session_4) = [1056]
  /\ Country.population session_4 = 951.
Proof. vm_compute. repeat split; reflexivity. Qed.

Lemma load_stops_at_missing_key_witness :
  lookup "cities" torn_fields = None
  /\ Country.load torn_document (civica, sample_env)
     = (Raise (KeyError "cities"),
        (Country.mk "Elsewhere" "A torn save file." 7 (Country.cities civica)
           (Country.laws civica) (Country.events civica) 12 [("food", 1)],
         sample_env)).
Proof.
  exact (conj eq_refl
           (proj2 (load_stops_at_missing_key torn_fields civica sample_env)
              "Elsewhere" "A torn save file." 7 12 [("food", 1)]
              (JObject [("food", JInt 1)])
              eq_refl eq_refl eq_refl eq_refl eq_refl eq_refl eq_refl)).
Defined.

Example parse_mapping_run :
  Shell.parse_mapping (builtins := plain_builtins)
    "crime:-3, happiness:2,tax,crime: 1"
  = Ok [("crime", 1); ("happiness", 2)].
Proof. vm_compute. reflexivity. Qed.

Lemma parse_mapping_edges_witness :
  occurrences ","%char "crime:-3:2" = 0%nat
  /\ (2 <= occurrences ":"%char "crime:-3:2")%nat
  /\ Shell.parse_mapping (builtins := plain_builtins) "crime:-3:2"
     = Raise ValueError
  /\ Shell.enact_law (builtins := plain_builtins)
       "Curfew" "Streets close at dusk." "crime:-3:2" (civica, sample_env)
     = (Raise ValueError, (civica, sample_env)).
Proof.
  assert (H2 : (2 <= occurrences ":"%char "crime:-3:2")%nat)
    by (simpl; lia).
  exact (conj eq_refl
           (conj H2
              (proj2 (parse_mapping_edges (builtins := plain_builtins)
                        "Curfew" "Streets close at dusk." "crime:-3:2"
                        civica sample_env) eq_refl H2))).
Defined.

